(** * training_utils.py: resolution buckets, train step, compilation cache

    A shallow embedding of [src/training_utils.py].

    Conventions of the embedding:
    - Python integers are [Z]; [//] and [%] on integers are [Z.div] and
      [Z.modulo] (both round towards minus infinity, as Python does).
    - NumPy one-dimensional arrays are lists; a two-column array of
      resolutions is a list of pairs [(width, height)].
    - The float64 steps of [calculate_resolution_array] are operations of
      the platform, taken as a parameter ([Float64]). What they compute on
      operands below 2^52, where float64 does not round, is stated apart
      ([exact_when_small]) and is a hypothesis of every theorem that needs
      it.
    - A Python exception is a value of [exn]; a computation that may raise
      has type [result A]. *)

From Stdlib Require Import ZArith QArith Qround Lia List.
From stdpp Require Import base option list gmap strings fin_maps sorting.

Local Open Scope Z_scope.

(** ** Exceptions and fallible computations *)

Inductive exn : Type :=
  | ZeroDivisionError
  | TypeError
  | IndexError
  | OverflowError
  | ReshapeError
  | ValueError (msg : string)
  | NameError (name : string).

Inductive result (A : Type) : Type :=
  | Ok (a : A)
  | Raise (e : exn).

Arguments Ok {A} a.
Arguments Raise {A} e.

#[global] Instance result_ret : MRet result := fun _ a => Ok a.
#[global] Instance result_bind : MBind result := fun _ _ f r =>
  match r with
  | Ok a => f a
  | Raise e => Raise e
  end.
#[global] Instance result_fmap : FMap result := fun _ _ f r =>
  match r with
  | Ok a => Ok (f a)
  | Raise e => Raise e
  end.

Definition is_Ok {A} (r : result A) : Prop := exists a, r = Ok a.
Definition is_Raise {A} (r : result A) : Prop := exists e, r = Raise e.

(** ** NumPy helpers *)

(** [np.arange(start, stop, step)] on integers: [ceil((stop-start)/step)]
    elements (none when that is not positive), the i-th being
    [start + i*step]. *)
Definition arange (start stop step : Z) : list Z :=
  (fun i => start + i * step) <$> seqZ 0 (- ((start - stop) / step)).

(** [a / b] with a Python int and an int64 array element: true division. *)
Definition true_divide (a b : Z) : Q := (inject_Z a / inject_Z b)%Q.

(** [x // r] on a float: the floor of the quotient, still a float. *)
Definition floor_divide (x : Q) (r : Z) : Q :=
  inject_Z (Qfloor (x / inject_Z r)%Q).

(** [.astype(int)]: truncation towards zero. *)
Definition astype_int (x : Q) : Z :=
  if Qle_bool 0 x then Qfloor x else Qceiling x.

(** [w[-1]]: the last element, [IndexError] on an empty array. *)
Definition last_item {A} (l : list A) : result A :=
  match last l with
  | Some x => Ok x
  | None => Raise IndexError
  end.

(** [a[:-1]] *)
Definition drop_last {A} (l : list A) : list A := removelast l.

(** The float64 steps of [calculate_resolution_array], as the platform
    performs them:
    - [int_root a] is [int(a ** (1 / 2))] for a Python int [a]: the
      conversion of [a] to a float ([OverflowError] when it does not fit),
      the power of the C library, and the truncation ([TypeError] when the
      power is complex);
    - [clamp a r w] is one element of [((a / w) // r * r).astype(int)] for
      a width [w] other than zero;
    - [nan_as_int] is the integer that [astype(int)] yields for NaN. A
      width of zero makes [a / w] infinite (or NaN), [// r] turns that into
      NaN, and the cast of NaN to int64 is left to the platform. *)
Record Float64 : Type := {
  int_root : Z -> result Z;
  clamp : Z -> Z -> Z -> Z;
  nan_as_int : Z
}.

(** One element of [((a / w) // r * r).astype(int)] when no operation
    rounds. *)
Definition exact_clamp (a r w : Z) : Z :=
  astype_int (floor_divide (true_divide a w) r * inject_Z r)%Q.

(** What IEEE 754 binary64 arithmetic gives on small operands. An integer
    below 2^52 is a float; the square root of one is computed to less than
    one unit in the last place, which its truncation absorbs; a negative one
    has a complex power; and the quotient of two of them is rounded by less
    than its distance to the next multiple of the rounding, so that the
    floor division, the product and the cast are exact. *)
Record exact_when_small (float64 : Float64) : Prop := {
  int_root_small :
    forall a, 0 <= a < 2 ^ 52 -> int_root float64 a = Ok (Z.sqrt a);
  int_root_negative :
    forall a, - 2 ^ 52 < a < 0 -> int_root float64 a = Raise TypeError;
  clamp_small :
    forall a r w, 0 <= a < 2 ^ 52 -> 0 < r < 2 ^ 52 -> 0 < w < 2 ^ 52 ->
      clamp float64 a r w = exact_clamp a r w
}.

Section Resolution.

Variable float64 : Float64.

(** One element of
    [((max_res_area / w) // rounding * rounding).astype(int)]. *)
Definition height_of (max_res_area rounding w : Z) : Z :=
  if w =? 0 then nan_as_int float64
  else clamp float64 max_res_area rounding w.

(** [calculate_resolution_array(max_res_area, bucket_lower_bound_res,
    rounding)]. [int(max_res_area ** (1 / 2))] may raise; [// rounding]
    raises for a zero rounding; [w[-1]] raises on an empty range. *)
Definition calculate_resolution_array
    (max_res_area bucket_lower_bound_res rounding : Z)
    : result (list (Z * Z)) :=
  centroid ← int_root float64 max_res_area;
  if rounding =? 0 then Raise ZeroDivisionError
  else
    let w := arange (bucket_lower_bound_res / rounding * rounding)
                    (centroid / rounding * rounding + rounding)
                    rounding in
    let h := height_of max_res_area rounding <$> w in
    w_last ← last_item w;
    h_last ← last_item h;
    let '(w_delta, h_delta) :=
      if w_last - h_last =? 0
      then (reverse (drop_last w), reverse (drop_last h))
      else (reverse w, reverse h) in
    Ok (zip (w ++ h_delta) (h ++ w_delta)).

End Resolution.

(** The value x86-64 gives for the NaN cast. *)
Definition int64_min : Z := - 2 ^ 63.

(** float64 on x86-64 wherever it does not round: the exact values of the
    two steps, and [int64_min] for NaN. On operands below 2^52 this is the
    arithmetic of the platform; the examples of this file stay there. *)
Definition float64_small : Float64 :=
  {| int_root a := if a <? 0 then Raise TypeError else Ok (Z.sqrt a);
     clamp := exact_clamp;
     nan_as_int := int64_min |}.

(** Number of times a bucket occurs in a list of buckets. *)
Definition occurrences (p : Z * Z) (l : list (Z * Z)) : nat :=
  length (filter (fun q => q = p) l).

(** The widths enumerated by the [np.arange] call when the centroid is the
    integer square root of the area, the row built for one width, and the
    first (landscape) half of the array. *)
Definition widths (max_res_area bucket_lower_bound_res rounding : Z) : list Z :=
  arange (bucket_lower_bound_res / rounding * rounding)
         (Z.sqrt max_res_area / rounding * rounding + rounding)
         rounding.

Definition row (float64 : Float64) (max_res_area rounding w : Z) : Z * Z :=
  (w, height_of float64 max_res_area rounding w).

Definition landscape (float64 : Float64)
    (max_res_area bucket_lower_bound_res rounding : Z) : list (Z * Z) :=
  row float64 max_res_area rounding
    <$> widths max_res_area bucket_lower_bound_res rounding.

(** What holds of a row [(w, h)] built from a positive width. *)
Record row_ok (max_res_area bucket_lower_bound_res rounding w h : Z) : Prop := {
  row_lower : bucket_lower_bound_res / rounding * rounding <= w;
  row_pos : 0 < w;
  row_width_mod : w mod rounding = 0;
  row_height : h = max_res_area / (w * rounding) * rounding;
  row_le : w <= h;
  row_area : w * h <= max_res_area;
  row_tight : max_res_area < (h + rounding) * w;
  row_centroid : w <= Z.sqrt max_res_area / rounding * rounding
}.

(** ** Frozen models, train states and the configuration *)

(** Python name resolution inside a function body: the function's locals,
    then the names bound at module level, then the builtins. *)
Definition module_globals : list string :=
  ["gc"; "Thread"; "jax"; "jnp"; "np"; "dataclass"; "FlaxAutoencoderKL";
   "FlaxStableDiffusionPipeline"; "FlaxUNet2DConditionModel";
   "FlaxDDPMScheduler"; "CLIPTokenizer"; "FlaxCLIPTextModel"; "train_state";
   "optax"; "struct"; "Callable"; "Tuple"; "Any"; "cc";
   "TimingContextManager"; "Mesh"; "PartitionSpec"; "NamedSharding";
   "mesh_utils"; "devices"; "mesh"; "FrozenModel"; "TrainingConfig";
   "calculate_resolution_array"; "load_models"; "create_frozen_states";
   "create_lion_optimizer_states"; "on_device_model_training_state";
   "train_step"; "dp_compile_all_unique_resolution"]%string.

Definition builtins : list string :=
  ["abs"; "aiter"; "all"; "anext"; "any"; "ascii"; "bin"; "bool";
   "breakpoint"; "bytearray"; "bytes"; "callable"; "chr"; "classmethod";
   "compile"; "complex"; "delattr"; "dict"; "dir"; "divmod"; "enumerate";
   "eval"; "exec"; "filter"; "float"; "format"; "frozenset"; "getattr";
   "globals"; "hasattr"; "hash"; "help"; "hex"; "id"; "input"; "int";
   "isinstance"; "issubclass"; "iter"; "len"; "list"; "locals"; "map"; "max";
   "memoryview"; "min"; "next"; "object"; "oct"; "open"; "ord"; "pow";
   "print"; "property"; "range"; "repr"; "reversed"; "round"; "set";
   "setattr"; "slice"; "sorted"; "staticmethod"; "str"; "sum"; "super";
   "tuple"; "type"; "vars"; "zip"; "__import__"; "__build_class__";
   "__debug__"; "__doc__"; "__loader__"; "__name__"; "__package__";
   "__spec__"; "copyright"; "credits"; "exit"; "license"; "quit";
   "Ellipsis"; "NotImplemented";
   "ArithmeticError"; "AssertionError"; "AttributeError"; "BaseException";
   "BaseExceptionGroup"; "BlockingIOError"; "BrokenPipeError"; "BufferError";
   "BytesWarning"; "ChildProcessError"; "ConnectionAbortedError";
   "ConnectionError"; "ConnectionRefusedError"; "ConnectionResetError";
   "DeprecationWarning"; "EOFError"; "EncodingWarning"; "EnvironmentError";
   "Exception"; "ExceptionGroup"; "FileExistsError"; "FileNotFoundError";
   "FloatingPointError"; "FutureWarning"; "GeneratorExit"; "IOError";
   "ImportError"; "ImportWarning"; "IndentationError"; "IndexError";
   "InterruptedError"; "IsADirectoryError"; "KeyError"; "KeyboardInterrupt";
   "LookupError"; "MemoryError"; "ModuleNotFoundError"; "NameError";
   "NotADirectoryError"; "NotImplementedError"; "OSError"; "OverflowError";
   "PendingDeprecationWarning"; "PermissionError"; "ProcessLookupError";
   "RecursionError"; "ReferenceError"; "ResourceWarning"; "RuntimeError";
   "RuntimeWarning"; "StopAsyncIteration"; "StopIteration"; "SyntaxError";
   "SyntaxWarning"; "SystemError"; "SystemExit"; "TabError"; "TimeoutError";
   "TypeError"; "UnboundLocalError"; "UnicodeDecodeError";
   "UnicodeEncodeError"; "UnicodeError"; "UnicodeTranslateError";
   "UnicodeWarning"; "UserWarning"; "ValueError"; "Warning";
   "ZeroDivisionError"]%string.

Module FrozenModel.

(** [class FrozenModel(struct.PyTreeNode)] with its two fields. *)
Record t (C P : Type) : Type := Build { call : C; params : P }.
Arguments Build {C P} call params.
Arguments call {C P} _.
Arguments params {C P} _.

Section Create.
Context {C P : Type}.

(** A value bound to a name while [create] runs. *)
Inductive value : Type :=
  | VClass
  | VCallable (f : C)
  | VParams (p : P)
  | VModuleLevel (name : string).

Definition lookup_name (locals : gmap string value) (name : string)
    : result value :=
  match locals !! name with
  | Some v => Ok v
  | None =>
      if decide (name ∈ module_globals) then Ok (VModuleLevel name)
      else if decide (name ∈ builtins) then Ok (VModuleLevel name)
      else Raise (NameError name)
  end.

(** [cls(call=..., params=...)]: the constructor checks nothing, but the
    embedding is typed, so only a callable and a parameter tree fit. *)
Definition construct (cls call_arg params_arg : value) : result (t C P) :=
  match cls, call_arg, params_arg with
  | VClass, VCallable f, VParams p => Ok (Build f p)
  | _, _, _ => Raise TypeError
  end.

(** [FrozenModel.create(apply_fn, params)]: the body evaluates [cls], then
    the keyword arguments [call=call] and [params=params] left to right. *)
Definition create (apply_fn : C) (params : P) : result (t C P) :=
  let locals : gmap string value :=
    list_to_map [("cls", VClass); ("apply_fn", VCallable apply_fn);
                 ("params", VParams params)]%string in
  cls ← lookup_name locals "cls";
  call_arg ← lookup_name locals "call";
  params_arg ← lookup_name locals "params";
  construct cls call_arg params_arg.

End Create.

End FrozenModel.


(** [optax.chain(optax.clip_by_global_norm(c), optax.lion(learning_rate =
    optax.constant_schedule(lr), b1, b2, weight_decay))], as the values it
    is built from. *)
Record GradientTransformation : Type := {
  clip_by_global_norm : Q;
  learning_rate_schedule : Q;
  b1 : Q;
  b2 : Q;
  weight_decay : Q
}.

Module TrainState.

(** [flax.training.train_state.TrainState]. *)
Record t (F Params OptState : Type) : Type := Build {
  step : Z;
  apply_fn : F;
  params : Params;
  tx : GradientTransformation;
  opt_state : OptState
}.
Arguments Build {F Params OptState} step apply_fn params tx opt_state.
Arguments step {F Params OptState} _.
Arguments apply_fn {F Params OptState} _.
Arguments params {F Params OptState} _.
Arguments tx {F Params OptState} _.
Arguments opt_state {F Params OptState} _.

Section Methods.
Context {F Params OptState : Type}.

(** The optimizer's numeric rules, opaque here: [tx.init(params)] and
    [tx.update(grads, opt_state, params)] followed by
    [optax.apply_updates]. *)
Variable tx_init : GradientTransformation -> Params -> OptState.
Variable tx_step :
  GradientTransformation -> Params -> OptState -> Params -> Params * OptState.

Definition create (apply_fn : F) (params : Params) (tx : GradientTransformation)
    : t F Params OptState :=
  Build 0 apply_fn params tx (tx_init tx params).

Definition apply_gradients (state : t F Params OptState) (grads : Params)
    : t F Params OptState :=
  let '(new_params, new_opt_state) :=
    tx_step (tx state) grads (opt_state state) (params state) in
  Build (step state + 1) (apply_fn state) new_params (tx state) new_opt_state.

End Methods.

End TrainState.

(** [@dataclass class TrainingConfig] *)
Record TrainingConfig : Type := {
  model_path : string;
  batch_size : Z;
  learning_rate : Q;
  unet_learning_rate : Q;
  text_encoder_learning_rate : Q;
  lr_scheduler : string;
  adam_to_lion_scale_factor : Q;
  compilation_cache_path : string;
  keep_compiled_fn_in_cache : bool;
  text_encoder_context_window : Z;
  context_window_concatenation_count : Z;
  aot_compile : bool;
  image_area_root : list Z;
  minimum_axis_length : list Z
}.

(** [FlaxDDPMScheduler]: the configuration fields and the two transforms
    that [train_step] uses. *)
Record NoiseScheduler (Tensor Timesteps SchedState : Type) : Type := {
  prediction_type : string;
  num_train_timesteps : Z;
  add_noise : SchedState -> Tensor -> Tensor -> Timesteps -> Tensor;
  get_velocity : SchedState -> Tensor -> Tensor -> Timesteps -> Tensor
}.
Arguments prediction_type {Tensor Timesteps SchedState} _.
Arguments num_train_timesteps {Tensor Timesteps SchedState} _.
Arguments add_noise {Tensor Timesteps SchedState} _ _ _ _ _.
Arguments get_velocity {Tensor Timesteps SchedState} _ _ _ _ _.

(** The dictionary returned by [load_models], one field per leaf key. *)
Record Models (UNet Vae TextEncoder Scheduler Params SchedState : Type) : Type := {
  unet_params : Params;
  unet_model : UNet;
  vae_params : Params;
  vae_model : Vae;
  text_encoder_params : Params;
  text_encoder_model : TextEncoder;
  noise_scheduler_state : SchedState;
  noise_scheduler_object : Scheduler
}.
Arguments unet_params {UNet Vae TextEncoder Scheduler Params SchedState} _.
Arguments unet_model {UNet Vae TextEncoder Scheduler Params SchedState} _.
Arguments vae_params {UNet Vae TextEncoder Scheduler Params SchedState} _.
Arguments vae_model {UNet Vae TextEncoder Scheduler Params SchedState} _.
Arguments text_encoder_params {UNet Vae TextEncoder Scheduler Params SchedState} _.
Arguments text_encoder_model {UNet Vae TextEncoder Scheduler Params SchedState} _.
Arguments noise_scheduler_state {UNet Vae TextEncoder Scheduler Params SchedState} _.
Arguments noise_scheduler_object {UNet Vae TextEncoder Scheduler Params SchedState} _.

Section States.
Context {UNet Vae TextEncoder Scheduler Params SchedState OptState : Type}.

Variable tx_init : GradientTransformation -> Params -> OptState.

(** [load_models(model_dir)], an external collaborator. *)
Variable load_models :
  string -> Models UNet Vae TextEncoder Scheduler Params SchedState.

Local Abbreviation ModelDict :=
  (Models UNet Vae TextEncoder Scheduler Params SchedState).

(** [create_frozen_states(models)] *)
Definition create_frozen_states (models : ModelDict)
    : FrozenModel.t Vae Params * FrozenModel.t Scheduler SchedState :=
  let vae_state :=
    FrozenModel.Build (vae_model models) (vae_params models) in
  let schedulers_state :=
    FrozenModel.Build (noise_scheduler_object models)
                      (noise_scheduler_state models) in
  (vae_state, schedulers_state).

(** The Lion chain built for one model from a learning rate and the scale
    factor. [lr / scale] raises [ZeroDivisionError] for a zero scale. The
    rates are rationals, the values of the two expressions before float64
    rounds them. *)
Definition lion_chain (lr scale : Q) : result GradientTransformation :=
  if Qeq_bool scale 0 then Raise ZeroDivisionError
  else
    Ok {| clip_by_global_norm := 1;
          learning_rate_schedule := lr / scale;
          b1 := 9 # 10;
          b2 := 99 # 100;
          weight_decay := (1 # 100) * scale |}.

(** [create_lion_optimizer_states]; an argument left out by the caller is
    [None] and takes the default of the signature. *)
Definition create_lion_optimizer_states
    (models : ModelDict)
    (train_unet train_text_encoder : option bool)
    (adam_to_lion_scale_factor : option Z)
    (u_net_learning_rate text_encoder_learning_rate : option Q)
    : result (option (TrainState.t UNet Params OptState)
              * option (TrainState.t TextEncoder Params OptState)) :=
  let train_unet := default true train_unet in
  let train_text_encoder := default true train_text_encoder in
  let scale := inject_Z (default 7%Z adam_to_lion_scale_factor) in
  let u_net_learning_rate := default (1 # 1000000) u_net_learning_rate in
  let text_encoder_learning_rate :=
    default (1 # 1000000) text_encoder_learning_rate in
  unet_state ←
    (if train_unet
     then
       u_net_optimizer ← lion_chain u_net_learning_rate scale;
       Ok (Some (TrainState.create tx_init (unet_model models)
                   (unet_params models) u_net_optimizer))
     else Ok None);
  text_encoder_state ←
    (if train_text_encoder
     then
       text_encoder_optimizer ← lion_chain text_encoder_learning_rate scale;
       Ok (Some (TrainState.create tx_init (text_encoder_model models)
                   (text_encoder_params models) text_encoder_optimizer))
     else Ok None);
  Ok (unet_state, text_encoder_state).

(** [on_device_model_training_state(training_config)]. Placing a tree on
    the mesh with [jax.device_put] leaves its values as they are. *)
Definition on_device_model_training_state (training_config : TrainingConfig) :=
  let models := load_models (model_path training_config) in
  trained_model_states ←
    create_lion_optimizer_states models (Some true) (Some true) (Some 7%Z)
      None None;
  let frozen_states := create_frozen_states models in
  Ok (fst trained_model_states, snd trained_model_states,
      fst frozen_states, snd frozen_states).

End States.

(** ** [train_step] *)

(** [count] consecutive pieces of [n] elements: a row-major reshape of a
    flat array into [count] rows of [n]. *)
Fixpoint chunks {A} (n count : nat) (l : list A) : list (list A) :=
  match count with
  | O => []
  | S c => take n l :: chunks n c (drop n l)
  end.

(** Merging two adjacent axes of a row-major array. *)
Definition flatten {A} (ls : list (list A)) : list A := mjoin ls.

(** [a[0]] along an axis, [IndexError] when the axis is empty. *)
Definition first_item {A} (l : list A) : result A :=
  match head l with
  | Some x => Ok x
  | None => Raise IndexError
  end.

(** The literal 77 of the reshape in [compute_loss]. *)
Definition window_len : nat := 77.

Section HiddenStates.
Context {Hidden : Type}.
Local Open Scope nat_scope.

(** [jnp.reshape(encoder_hidden_states, (latents.shape[0], -1, 77,
    encoder_hidden_states.shape[-1]))] on the encoder output, given as its
    rows of per-token hidden vectors. The result is indexed by example,
    window and token. The free dimension exists only when the number of
    tokens is a multiple of [batch * 77]. *)
Definition reshape_windows (batch : nat) (encoder_output : list (list Hidden))
    : result (list (list (list Hidden))) :=
  let tokens := flatten encoder_output in
  let total := length tokens in
  if decide (batch = 0) then Raise ReshapeError
  else if decide (total mod (batch * window_len) = 0) then
    let window_count := total / (batch * window_len) in
    Ok (chunks window_count batch
          (chunks window_len (batch * window_count) tokens))
  else Raise ReshapeError.

(** The [strip_bos_eos_token] branch for one example:
    [concatenate([x[0, :-1], reshape(x[1:-1, 1:-1]), x[-1, 1:]])]. *)
Definition strip_bos_eos (windows : list (list Hidden)) : result (list Hidden) :=
  first_window ← first_item windows;
  last_window ← last_item windows;
  let middle := (fun w => drop_last (tail w)) <$> drop_last (tail windows) in
  Ok (drop_last first_window ++ flatten middle ++ tail last_window).

(** Both branches of [if strip_bos_eos_token], over the batch. *)
Definition stitch_windows (strip_bos_eos_token : bool)
    (hidden_states : list (list (list Hidden))) : result (list (list Hidden)) :=
  if strip_bos_eos_token then mapM (M:=result) strip_bos_eos hidden_states
  else Ok (flatten <$> hidden_states).

End HiddenStates.

Section TrainStep.
Context {Tensor Hidden Rng Timesteps Params SchedState OptState Scalar : Type}.

(** jax primitives, opaque: [jax.random.split(key, num=3)], a standard
    normal draw shaped like a tensor, the per-channel offset draw,
    [jax.random.randint], the NHWC to NCHW transpose, scaling, addition,
    [shape[0]], the mean squared error, and the gradients that
    [jax.value_and_grad(fun, argnums=[0, 1])] computes for a loss. *)
Variable random_split3 : Rng -> Rng * Rng * Rng.
Variable random_normal : Rng -> Tensor -> Tensor.
Variable random_normal_offset : Rng -> Tensor -> Tensor.
Variable random_randint : Rng -> nat -> Z -> Z -> Timesteps.
Variable transpose_nchw : Tensor -> Tensor.
Variable scale : Q -> Tensor -> Tensor.
Variable add : Tensor -> Tensor -> Tensor.
Variable shape0 : Tensor -> nat.
Variable mean_squared_error : Tensor -> Tensor -> Scalar.
Variable grad01 :
  (Params -> Params -> result Scalar) -> Params -> Params -> Params * Params.
Variable tx_step :
  GradientTransformation -> Params -> OptState -> Params -> Params * OptState.

(** The model handles: the denoiser, the text encoder (its first output, as
    rows of hidden vectors) and the VAE encoder followed by sampling. *)
Definition UNetFn : Type :=
  Params -> Tensor -> Timesteps -> list (list Hidden) -> Tensor.
Definition TextEncoderFn : Type :=
  Params -> list (list Z) -> Rng -> list (list Hidden).
Definition VaeFn : Type := Params -> Tensor -> Rng -> Tensor.
Definition Scheduler : Type := NoiseScheduler Tensor Timesteps SchedState.

Record Batch : Type := {
  pixel_values : Tensor;
  input_ids : list (list Z);
  attention_mask : list (list Z)
}.

(** The target of the loss, by prediction type. *)
Definition regression_target (scheduler : FrozenModel.t Scheduler SchedState)
    (latents noise : Tensor) (timesteps : Timesteps) : result Tensor :=
  let prediction := prediction_type (FrozenModel.call scheduler) in
  if decide (prediction = "epsilon"%string) then Ok noise
  else if decide (prediction = "v_prediction"%string) then
    Ok (get_velocity (FrozenModel.call scheduler)
          (FrozenModel.params scheduler) latents noise timesteps)
  else Raise (ValueError ("Unknown prediction type " +:+ prediction)).

(** The inner function [compute_loss] of [train_step], with the names it
    closes over as leading arguments. Its [vae_params] and
    [noise_scheduler_state] arguments are not used by the body. *)
Definition compute_loss
    (unet_state : TrainState.t UNetFn Params OptState)
    (text_encoder_state : TrainState.t TextEncoderFn Params OptState)
    (frozen_vae_state : FrozenModel.t VaeFn Params)
    (frozen_noise_scheduler_state : FrozenModel.t Scheduler SchedState)
    (use_offset_noise strip_bos_eos_token : bool)
    (dropout_rng sample_rng : Rng)
    (unet_params text_encoder_params vae_params : Params)
    (noise_scheduler_state : SchedState) (batch : Batch) : result Scalar :=
  let latents :=
    FrozenModel.call frozen_vae_state (FrozenModel.params frozen_vae_state)
      (pixel_values batch) sample_rng in
  let latents := transpose_nchw latents in
  let latents := scale (18215 # 100000) latents in
  let '(noise_offset_rng, noise_rng, timestep_rng) := random_split3 sample_rng in
  let noise := random_normal noise_rng latents in
  let noise :=
    if use_offset_noise
    then add noise (scale (1 # 10) (random_normal_offset noise_offset_rng latents))
    else noise in
  let batch_size := shape0 latents in
  let timesteps :=
    random_randint timestep_rng batch_size 0
      (num_train_timesteps (FrozenModel.call frozen_noise_scheduler_state)) in
  let noisy_latents :=
    add_noise (FrozenModel.call frozen_noise_scheduler_state)
      (FrozenModel.params frozen_noise_scheduler_state)
      latents noise timesteps in
  let encoder_hidden_states :=
    TrainState.apply_fn text_encoder_state text_encoder_params
      (input_ids batch) dropout_rng in
  encoder_hidden_states ← reshape_windows (shape0 latents) encoder_hidden_states;
  encoder_hidden_states ← stitch_windows strip_bos_eos_token encoder_hidden_states;
  let model_pred :=
    TrainState.apply_fn unet_state unet_params noisy_latents timesteps
      encoder_hidden_states in
  target ← regression_target frozen_noise_scheduler_state latents noise timesteps;
  Ok (mean_squared_error target model_pred).

(** [train_step]. The gradients are taken only once the loss has been
    evaluated: an exception raised by [compute_loss] leaves [train_step]
    before [apply_gradients]. *)
Definition train_step
    (unet_state : TrainState.t UNetFn Params OptState)
    (text_encoder_state : TrainState.t TextEncoderFn Params OptState)
    (batch : Batch) (train_rng : Rng)
    (frozen_vae_state : FrozenModel.t VaeFn Params)
    (frozen_noise_scheduler_state : FrozenModel.t Scheduler SchedState)
    (use_offset_noise strip_bos_eos_token : bool)
    : result (TrainState.t UNetFn Params OptState
              * TrainState.t TextEncoderFn Params OptState
              * Scalar * Rng) :=
  let '(dropout_rng, sample_rng, new_train_rng) := random_split3 train_rng in
  let loss_fn unet_params text_encoder_params :=
    compute_loss unet_state text_encoder_state frozen_vae_state
      frozen_noise_scheduler_state use_offset_noise strip_bos_eos_token
      dropout_rng sample_rng unet_params text_encoder_params
      (FrozenModel.params frozen_vae_state)
      (FrozenModel.params frozen_noise_scheduler_state) batch in
  loss ← loss_fn (TrainState.params unet_state)
                 (TrainState.params text_encoder_state);
  let grad :=
    grad01 loss_fn (TrainState.params unet_state)
      (TrainState.params text_encoder_state) in
  let new_unet_state :=
    TrainState.apply_gradients tx_step unet_state (fst grad) in
  let new_text_encoder_state :=
    TrainState.apply_gradients tx_step text_encoder_state (snd grad) in
  Ok (new_unet_state, new_text_encoder_state, loss, new_train_rng).

End TrainStep.

(** ** [dp_compile_all_unique_resolution] *)

(** [np.concatenate] of a list of arrays; it refuses an empty list. *)
Definition np_concatenate {A} (arrays : list (list A)) : result (list A) :=
  match arrays with
  | [] => Raise (ValueError "need at least one array to concatenate")
  | _ => Ok (flatten arrays)
  end.

(** Shapes of the dummy batch built by [_create_lowered_hlo]. *)
Record BatchShape : Type := {
  pixel_values_shape : Z * Z * Z * Z;
  input_ids_shape : Z * Z;
  attention_mask_shape : Z * Z
}.

Definition dummy_batch_shape (training_config : TrainingConfig)
    (bucket_resolution : Z * Z) : BatchShape :=
  let tokens_shape :=
    (batch_size training_config
       * context_window_concatenation_count training_config,
     text_encoder_context_window training_config) in
  {| pixel_values_shape :=
       (batch_size training_config, 3,
        fst bucket_resolution, snd bucket_resolution);
     input_ids_shape := tokens_shape;
     attention_mask_shape := tokens_shape |}.

(** An entry of the returned dictionary: the object that [HLO.compile()]
    returned in the worker thread of the bucket at position
    [compiled_by]. *)
Record Compiled (Executable : Type) : Type := {
  compiled_by : nat;
  executable : Executable
}.
Arguments compiled_by {Executable} _.
Arguments executable {Executable} _.

Section Compile.
Context {Lowered Executable : Type}.

Variable float64 : Float64.

(** [jax.jit(train_step, ...).lower(...)] on the dummy batch, with the four
    states fixed, and [HLO.compile()]. An exception inside a worker thread
    ends that thread only; it is [None] here. *)
Variable lower : BatchShape -> result Lowered.
Variable compile : Lowered -> option Executable.

(** The master bucket list: one call of [calculate_resolution_array] per
    pair of [zip(image_area_root, minimum_axis_length)], concatenated. *)
Definition all_possible_resolution (training_config : TrainingConfig)
    : result (list (Z * Z)) :=
  let resolution_constraints :=
    zip (image_area_root training_config)
        (minimum_axis_length training_config) in
  buckets ← mapM (M:=result)
    (fun resolution_constraint =>
       calculate_resolution_array float64
         (fst resolution_constraint ^ 2) (snd resolution_constraint) 64)
    resolution_constraints;
  np_concatenate buckets.

(** [_create_lowered_hlo(bucket_resolution)]: the lowered step and the
    shape of the dummy pixel tensor. *)
Definition _create_lowered_hlo (training_config : TrainingConfig)
    (bucket_resolution : Z * Z) : result (Lowered * (Z * Z * Z * Z)) :=
  let shape := dummy_batch_shape training_config bucket_resolution in
  lowered_hlo ← lower shape;
  Ok (lowered_hlo, pixel_values_shape shape).

(** [_compile_unique_res_train_step], run by the thread at position [i] of
    the dispatch order: one store into the shared dictionary. *)
Definition _compile_unique_res_train_step
    (jobs : list (Lowered * (Z * Z * Z * Z)))
    (compiled_train_step : gmap (Z * Z * Z * Z) (Compiled Executable))
    (i : nat) : gmap (Z * Z * Z * Z) (Compiled Executable) :=
  match jobs !! i with
  | Some (HLO, resolution) =>
      match compile HLO with
      | Some exe =>
          <[resolution := {| compiled_by := i; executable := exe |}]>
            compiled_train_step
      | None => compiled_train_step
      end
  | None => compiled_train_step
  end.

(** [dp_compile_all_unique_resolution]. The buckets are lowered in order on
    the calling thread, each worker thread stores its executable when its
    compilation ends, and the dictionary is returned after all threads are
    joined. [completion_order] lists the positions of the workers in the
    order in which their stores take place. *)
Definition dp_compile_all_unique_resolution
    (training_config : TrainingConfig) (completion_order : list nat)
    : result (gmap (Z * Z * Z * Z) (Compiled Executable)) :=
  all_possible_resolution ← all_possible_resolution training_config;
  jobs ← mapM (M:=result) (_create_lowered_hlo training_config)
                all_possible_resolution;
  Ok (foldl (_compile_unique_res_train_step jobs) ∅ completion_order).

End Compile.

(** Replacing the two constraint lists of a configuration. *)
Definition with_constraints (training_config : TrainingConfig)
    (roots axes : list Z) : TrainingConfig :=
  {| model_path := model_path training_config;
     batch_size := batch_size training_config;
     learning_rate := learning_rate training_config;
     unet_learning_rate := unet_learning_rate training_config;
     text_encoder_learning_rate := text_encoder_learning_rate training_config;
     lr_scheduler := lr_scheduler training_config;
     adam_to_lion_scale_factor := adam_to_lion_scale_factor training_config;
     compilation_cache_path := compilation_cache_path training_config;
     keep_compiled_fn_in_cache := keep_compiled_fn_in_cache training_config;
     text_encoder_context_window := text_encoder_context_window training_config;
     context_window_concatenation_count :=
       context_window_concatenation_count training_config;
     aot_compile := aot_compile training_config;
     image_area_root := roots;
     minimum_axis_length := axes |}.

(** The configuration of the docstring of [TrainingConfig]. *)
Definition example_config : TrainingConfig :=
  {| model_path := "model_checkpoints/path";
     batch_size := 64;
     learning_rate := 1 # 1000000;
     unet_learning_rate := 1 # 1000000;
     text_encoder_learning_rate := 1 # 1000000;
     lr_scheduler := "constant";
     adam_to_lion_scale_factor := 7;
     compilation_cache_path := "jax_cache";
     keep_compiled_fn_in_cache := true;
     text_encoder_context_window := 77;
     context_window_concatenation_count := 3;
     aot_compile := true;
     image_area_root := [576; 704; 832; 960; 1088];
     minimum_axis_length := [384; 512; 576; 704; 832] |}.

(** ** Example inputs *)

(** A scheduler over integer tensors: noise is added, and the velocity is
    the difference of noise and sample. *)
Definition example_scheduler (prediction : string)
    : FrozenModel.t (NoiseScheduler Z unit unit) unit :=
  FrozenModel.Build
    {| prediction_type := prediction;
       num_train_timesteps := 1000;
       add_noise := fun _ sample noise _ => sample + noise;
       get_velocity := fun _ sample noise _ => noise - sample |}
    ().

Definition example_unet_state
    : TrainState.t (UNetFn (Tensor:=Z) (Hidden:=unit) (Timesteps:=unit)
                      (Params:=unit)) unit unit :=
  TrainState.Build 0 (fun _ noisy_latents _ _ => noisy_latents) ()
    {| clip_by_global_norm := 1; learning_rate_schedule := (1 # 1000000) / 7;
       b1 := 9 # 10; b2 := 99 # 100; weight_decay := (1 # 100) * 7 |} ().

Definition example_text_encoder_state
    : TrainState.t (TextEncoderFn (Hidden:=unit) (Rng:=unit) (Params:=unit))
        unit unit :=
  TrainState.Build 0
    (fun _ (ids : list (list Z)) _ =>
       (fun tokens : list Z => (fun _ => ()) <$> tokens) <$> ids) ()
    {| clip_by_global_norm := 1; learning_rate_schedule := (1 # 1000000) / 7;
       b1 := 9 # 10; b2 := 99 # 100; weight_decay := (1 # 100) * 7 |} ().

Definition example_vae_state
    : FrozenModel.t (VaeFn (Tensor:=Z) (Rng:=unit) (Params:=unit)) unit :=
  FrozenModel.Build (fun _ sample _ => sample) ().

(** One image with two windows of 77 token ids. *)
Definition example_batch : Batch (Tensor:=Z) :=
  {| pixel_values := 1;
     input_ids := replicate 2 (replicate 77 0);
     attention_mask := replicate 2 (replicate 77 0) |}.

(** One image with 76 token ids, which do not fill a window of 77. *)
Definition short_batch : Batch (Tensor:=Z) :=
  {| pixel_values := 1;
     input_ids := [replicate 76 0];
     attention_mask := [replicate 76 0] |}.

(** [train_step] on the example states, with trivial numeric primitives. *)
Definition example_train_step (batch : Batch (Tensor:=Z))
    (scheduler : FrozenModel.t (NoiseScheduler Z unit unit) unit) :=
  train_step (fun _ => ((), (), ())) (fun _ latents => latents)
    (fun _ latents => latents) (fun _ _ _ _ => ()) (fun x => x)
    (fun _ x => x) Z.add (fun _ => 1%nat) (fun target pred => (target - pred) ^ 2)
    (fun _ _ _ => ((), ())) (fun _ _ opt_state params => (params, opt_state))
    example_unet_state example_text_encoder_state batch ()
    example_vae_state scheduler false true.

(** The loss that this call of [train_step] evaluates. *)
Definition example_compute_loss (batch : Batch (Tensor:=Z))
    (scheduler : FrozenModel.t (NoiseScheduler Z unit unit) unit) :=
  compute_loss (fun _ => ((), (), ())) (fun _ latents => latents)
    (fun _ latents => latents) (fun _ _ _ _ => ()) (fun x => x)
    (fun _ x => x) Z.add (fun _ => 1%nat) (fun target pred => (target - pred) ^ 2)
    example_unet_state example_text_encoder_state example_vae_state scheduler
    false true () () () () () () batch.

(** The same constraint configured twice, and constraint lists of
    different lengths. *)
Definition duplicate_config : TrainingConfig :=
  with_constraints example_config [512; 512] [512; 512].

Definition mismatched_config : TrainingConfig :=
  with_constraints example_config [512; 640] [256].

(** A configuration that differs from [example_config] in every learning
    rate and in the scale factor. *)
Definition rescaled_config : TrainingConfig :=
  {| model_path := "model_checkpoints/path";
     batch_size := 64;
     learning_rate := 1 # 10000;
     unet_learning_rate := 2 # 10000;
     text_encoder_learning_rate := 3 # 10000;
     lr_scheduler := "constant";
     adam_to_lion_scale_factor := 3;
     compilation_cache_path := "jax_cache";
     keep_compiled_fn_in_cache := true;
     text_encoder_context_window := 77;
     context_window_concatenation_count := 3;
     aot_compile := true;
     image_area_root := [576; 704; 832; 960; 1088];
     minimum_axis_length := [384; 512; 576; 704; 832] |}.

(** Models that record the path they were loaded from. *)
Definition example_load_models (model_dir : string)
    : Models string string string string string string :=
  {| unet_params := model_dir; unet_model := "unet";
     vae_params := model_dir; vae_model := "vae";
     text_encoder_params := model_dir; text_encoder_model := "text_encoder";
     noise_scheduler_state := model_dir;
     noise_scheduler_object := "scheduler" |}.

(** * Properties *)

Example resolution_default :
  calculate_resolution_array float64_small (512 ^ 2) 256 64
  = Ok [(256, 1024); (320, 768); (384, 640); (448, 576); (512, 512);
        (576, 448); (640, 384); (768, 320); (1024, 256)].
Proof. vm_compute. reflexivity. Qed.

Example resolution_not_square :
  calculate_resolution_array float64_small (576 ^ 2) 384 64
  = Ok [(384, 832); (448, 704); (512, 640); (576, 576);
        (640, 512); (704, 448); (832, 384)].
Proof. vm_compute. reflexivity. Qed.

(** ** Facts about [calculate_resolution_array] *)

Lemma astype_int_inject (z : Z) : astype_int (inject_Z z) = z.
Proof.
  unfold astype_int.
  destruct (Qle_bool 0 (inject_Z z)); [apply Qfloor_Z | apply Qceiling_Z].
Qed.

Lemma Qfloor_div_div (a w r : Z) :
  w <> 0 -> r <> 0 ->
  Qfloor (inject_Z a / inject_Z w / inject_Z r) = a / (w * r).
Proof.
  intros Hw Hr. rewrite Zdiv_Qdiv. apply Qfloor_comp.
  rewrite inject_Z_mult. field. split.
  - intros H. apply (inject_Z_injective r 0) in H. contradiction.
  - intros H. apply (inject_Z_injective w 0) in H. contradiction.
Qed.

Lemma drop_last_fmap {A B} (f : A -> B) (l : list A) :
  drop_last (f <$> l) = f <$> drop_last l.
Proof.
  unfold drop_last. induction l as [|a [|b l] IH]; [reflexivity..|].
  change (f <$> a :: b :: l) with (f a :: f b :: (f <$> l)).
  change (removelast (f a :: f b :: (f <$> l)))
    with (f a :: removelast (f <$> b :: l)).
  rewrite IH. reflexivity.
Qed.

Lemma drop_last_snoc {A} (l : list A) (x : A) :
  last l = Some x -> l = drop_last l ++ [x].
Proof.
  intros H. apply last_Some in H as [l' ->].
  unfold drop_last. rewrite removelast_last. reflexivity.
Qed.

Lemma zip_graph {A B} (f : A -> B) (l : list A) :
  zip l (f <$> l) = (fun x => (x, f x)) <$> l.
Proof. induction l as [|a l IH]; [reflexivity|]. cbn. rewrite IH. reflexivity. Qed.

Lemma zip_reverse_graph {A B} (f : A -> B) (l : list A) :
  zip (reverse (f <$> l)) (reverse l)
  = reverse (prod_swap <$> ((fun x => (x, f x)) <$> l)).
Proof.
  induction l as [|a l IH]; [reflexivity|].
  rewrite !fmap_cons, !reverse_cons.
  rewrite zip_with_app.
  - rewrite IH. reflexivity.
  - rewrite !length_reverse, length_fmap. reflexivity.
Qed.

Lemma occurrences_absent (p : Z * Z) (l : list (Z * Z)) :
  p ∉ l -> occurrences p l = 0%nat.
Proof.
  unfold occurrences. induction l as [|q l IH]; intros Hin; [reflexivity|].
  apply not_elem_of_cons in Hin as [Hne Hin].
  rewrite filter_cons. destruct (decide (q = p)) as [->|_]; [contradiction|].
  auto.
Qed.

Lemma occurrences_NoDup (p : Z * Z) (l : list (Z * Z)) :
  NoDup l -> p ∈ l -> occurrences p l = 1%nat.
Proof.
  induction 1 as [|q l Hq Hnd IH]; intros Hin.
  - inversion Hin.
  - unfold occurrences. rewrite filter_cons.
    destruct (decide (q = p)) as [->|Hne].
    + cbn. f_equal. apply occurrences_absent. assumption.
    + apply elem_of_cons in Hin as [->|Hin]; [contradiction|]. auto.
Qed.

Lemma float64_small_exact : exact_when_small float64_small.
Proof.
  split.
  - intros a Ha. cbn. destruct (Z.ltb_spec a 0); [lia | reflexivity].
  - intros a Ha. cbn. destruct (Z.ltb_spec a 0); [reflexivity | lia].
  - reflexivity.
Qed.

(** Without rounding, the clamped height is the integer quotient. *)
Lemma exact_clamp_div (a r w : Z) :
  w <> 0 -> r <> 0 -> exact_clamp a r w = a / (w * r) * r.
Proof.
  intros Hw Hr. unfold exact_clamp, floor_divide, true_divide.
  rewrite Qfloor_div_div by assumption.
  rewrite <- inject_Z_mult. apply astype_int_inject.
Qed.

(** Whatever the float64 steps give, a returned array is the rows [(w, h)]
    followed by the reversed, swapped rows, the last row being left out of
    the second half exactly when it is square. *)
Lemma resolution_structure
    (float64 : Float64) (max_res_area bucket_lower_bound_res rounding : Z)
    (l : list (Z * Z)) :
  calculate_resolution_array float64 max_res_area bucket_lower_bound_res
    rounding = Ok l ->
  exists centroid rows wl hl mirrored,
    int_root float64 max_res_area = Ok centroid /\
    rounding <> 0 /\
    rows = row float64 max_res_area rounding
             <$> arange (bucket_lower_bound_res / rounding * rounding)
                        (centroid / rounding * rounding + rounding) rounding /\
    last rows = Some (wl, hl) /\
    (if wl - hl =? 0 then mirrored = drop_last rows else mirrored = rows) /\
    l = rows ++ reverse (prod_swap <$> mirrored).
Proof.
  unfold calculate_resolution_array.
  destruct (int_root float64 max_res_area) as [centroid|] eqn:Hroot;
    [|discriminate].
  cbn [mbind result_bind].
  destruct (Z.eqb_spec rounding 0) as [|Hr]; [discriminate|].
  set (ws := arange _ _ _).
  unfold last_item. rewrite fmap_last.
  destruct (last ws) as [wl|] eqn:Hlast; [|discriminate].
  cbn [mbind result_bind fmap option_fmap option_map].
  intros Heq.
  exists centroid, (row float64 max_res_area rounding <$> ws), wl,
    (height_of float64 max_res_area rounding wl).
  assert (Hlen : length ws
                 = length (height_of float64 max_res_area rounding <$> ws))
    by (rewrite length_fmap; reflexivity).
  assert (Hrows : last (row float64 max_res_area rounding <$> ws)
                  = Some (wl, height_of float64 max_res_area rounding wl))
    by (rewrite fmap_last, Hlast; reflexivity).
  destruct (wl - height_of float64 max_res_area rounding wl =? 0).
  - exists (drop_last (row float64 max_res_area rounding <$> ws)).
    repeat (split; [first [reflexivity | assumption]|]).
    injection Heq as <-. rewrite zip_with_app by exact Hlen.
    f_equal; [apply zip_graph|].
    rewrite !drop_last_fmap. apply zip_reverse_graph.
  - exists (row float64 max_res_area rounding <$> ws).
    repeat (split; [first [reflexivity | assumption]|]).
    injection Heq as <-. rewrite zip_with_app by exact Hlen.
    f_equal; [apply zip_graph|]. apply zip_reverse_graph.
Qed.

Section ResolutionFacts.

Variable float64 : Float64.
Variables max_res_area bucket_lower_bound_res rounding : Z.

Local Abbreviation A := max_res_area.
Local Abbreviation m := bucket_lower_bound_res.
Local Abbreviation r := rounding.
Local Abbreviation Widths := (widths A m r).
Local Abbreviation Landscape := (landscape float64 A m r).

Hypothesis rounding_pos : 0 < r.
Hypothesis lower_bound_ge : r <= m.
Hypothesis float64_exact : exact_when_small float64.
Hypothesis area_small : 0 <= A < 2 ^ 52.

(** For a small area the centroid is the integer square root, and the rows
    are those of [landscape]. *)
Lemma resolution_shape (l : list (Z * Z)) :
  calculate_resolution_array float64 A m r = Ok l ->
  r <> 0 /\
  exists wl hl mirrored,
    last Landscape = Some (wl, hl) /\
    (if wl - hl =? 0 then mirrored = drop_last Landscape
     else mirrored = Landscape) /\
    l = Landscape ++ reverse (prod_swap <$> mirrored).
Proof.
  intros (c & rows & wl & hl & mirrored & Hc & Hr & -> & Hlast & Hmir & ->)
    %resolution_structure.
  rewrite (int_root_small _ float64_exact) in Hc by exact area_small.
  injection Hc as <-.
  split; [assumption|]. exists wl, hl, mirrored. auto.
Qed.

Lemma widths_length :
  Widths = (fun i => m / r * r + i * r)
             <$> seqZ 0 (Z.sqrt A / r - m / r + 1).
Proof.
  unfold widths, arange. do 2 f_equal.
  replace (m / r * r - (Z.sqrt A / r * r + r))
    with ((m / r - Z.sqrt A / r - 1) * r) by ring.
  rewrite Z.div_mul by lia. ring.
Qed.

Lemma elem_of_widths (w : Z) :
  w ∈ Widths <-> exists i, m / r <= i <= Z.sqrt A / r /\ w = i * r.
Proof.
  rewrite widths_length, list_elem_of_fmap. split.
  - intros (i & -> & Hi). apply elem_of_seqZ in Hi.
    exists (m / r + i). split; [lia | ring].
  - intros (i & Hi & ->). exists (i - m / r). split; [ring|].
    apply elem_of_seqZ. lia.
Qed.

Lemma widths_NoDup : NoDup Widths.
Proof.
  rewrite widths_length. apply NoDup_fmap_2; [|apply NoDup_seqZ].
  intros i j Hij. nia.
Qed.

Lemma widths_last (w : Z) :
  last Widths = Some w -> w = Z.sqrt A / r * r.
Proof.
  rewrite widths_length, fmap_last, last_lookup, length_seqZ.
  intros H. apply fmap_Some in H as (i & Hi & ->).
  apply lookup_seqZ in Hi as [-> Hlt].
  set (n := Z.sqrt A / r - m / r + 1) in *.
  replace (Z.of_nat (Nat.pred (Z.to_nat n))) with (n - 1) by lia.
  unfold n. ring.
Qed.

Lemma widths_nonempty : m / r <= Z.sqrt A / r -> Widths <> [].
Proof.
  intros Hle Hnil. apply (f_equal length) in Hnil.
  rewrite widths_length, length_fmap, length_seqZ in Hnil. cbn in Hnil. lia.
Qed.

Local Abbreviation area_nonneg := (proj1 area_small).

Lemma widths_row_ok (w : Z) :
  w ∈ Widths -> row_ok A m r w (height_of float64 A r w).
Proof.
  intros (i & [Hlo Hhi] & ->)%elem_of_widths.
  assert (1 <= m / r) by (apply Z.div_le_lower_bound; lia).
  assert (Hc : r * (Z.sqrt A / r) <= Z.sqrt A) by (apply Z.mul_div_le; lia).
  pose proof (Z.sqrt_spec A area_nonneg) as [Hsq _].
  pose proof (Z.sqrt_nonneg A) as Hs0.
  assert (Hi : 1 <= i) by lia.
  assert (Hw : 0 < i * r) by nia.
  assert (Hwc : i * r <= Z.sqrt A) by nia.
  assert (Hh : height_of float64 A r (i * r) = A / (i * r * r) * r).
  { unfold height_of. destruct (Z.eqb_spec (i * r) 0) as [|_]; [lia|].
    rewrite (clamp_small _ float64_exact) by nia.
    apply exact_clamp_div; lia. }
  rewrite Hh.
  pose proof (Z.mul_div_le A (i * r * r) ltac:(nia)) as Hq1.
  pose proof (Z.mul_succ_div_gt A (i * r * r) ltac:(nia)) as Hq2.
  set (q := A / (i * r * r)) in *.
  assert (Hww : (i * r) * (i * r) <= A) by nia.
  assert (Hiq : i <= q) by nia.
  split; first [reflexivity | apply Z.mod_mul; lia | nia].
Qed.

Lemma elem_of_landscape (w h : Z) :
  (w, h) ∈ Landscape <-> w ∈ Widths /\ h = height_of float64 A r w.
Proof.
  unfold landscape, row. rewrite list_elem_of_fmap. split.
  - intros (x & [= -> ->] & Hx). auto.
  - intros [Hw ->]. eauto.
Qed.

Lemma landscape_row_ok (w h : Z) : (w, h) ∈ Landscape -> row_ok A m r w h.
Proof. intros [Hw ->]%elem_of_landscape. apply widths_row_ok, Hw. Qed.

Lemma landscape_NoDup : NoDup Landscape.
Proof.
  unfold landscape. apply NoDup_fmap_2; [|apply widths_NoDup].
  intros x y [= ->]. reflexivity.
Qed.

(** Only the widest row can be square. *)
Lemma square_row_is_last (w : Z) :
  row_ok A m r w w -> w = Z.sqrt A / r * r.
Proof.
  intros [_ Hpos Hmod _ _ _ Htight Hc].
  apply Z.mod_divide in Hmod as [i ->]; [|lia].
  assert (Hs : r * (Z.sqrt A / r) <= Z.sqrt A) by (apply Z.mul_div_le; lia).
  pose proof (Z.sqrt_spec A area_nonneg) as [Hsq _].
  set (c := Z.sqrt A) in *. set (k := c / r) in *.
  destruct (Z.eq_dec i k) as [->|Hne]; [reflexivity|].
  assert (Hlt : i + 1 <= k) by nia.
  assert (Hwc : (i + 1) * r <= c) by nia.
  assert (0 < (i + 1) * r) by nia.
  assert ((i + 1) * r * ((i + 1) * r) <= c * c) by nia.
  nia.
Qed.

(** The array under the validity conditions: the landscape rows, then the
    swapped non-square rows in reverse order. *)
Lemma resolution_decompose (l : list (Z * Z)) :
  calculate_resolution_array float64 A m r = Ok l ->
  exists mirrored,
    l = Landscape ++ reverse (prod_swap <$> mirrored) /\
    NoDup mirrored /\
    forall w h, (w, h) ∈ mirrored <-> (w, h) ∈ Landscape /\ w <> h.
Proof.
  intros (_ & wl & hl & mirrored & Hlast & Hmir & ->)%resolution_shape.
  exists mirrored. split; [reflexivity|].
  assert (Hwl : wl = Z.sqrt A / r * r /\ hl = height_of float64 A r wl).
  { unfold landscape in Hlast. rewrite fmap_last in Hlast.
    apply fmap_Some in Hlast as (x & Hx & [= -> ->]).
    split; [apply widths_last, Hx | reflexivity]. }
  destruct Hwl as [Hwl Hhl].
  pose proof landscape_NoDup as Hnd.
  destruct (Z.eqb_spec (wl - hl) 0) as [Heq|Hne].
  - assert (hl = wl) by lia. subst hl mirrored.
    pose proof (drop_last_snoc _ _ Hlast) as Hsplit.
    set (pre := drop_last Landscape) in *. clearbody pre.
    rewrite Hsplit in Hnd.
    apply NoDup_app in Hnd as (Hpre & Hdisj & _).
    split; [exact Hpre|].
    intros w h. split.
    + intros Hin.
      assert (Hin' : (w, h) ∈ Landscape)
        by (rewrite Hsplit; apply elem_of_app; left; exact Hin).
      split; [exact Hin'|]. intros ->.
      pose proof (square_row_is_last _ (landscape_row_ok _ _ Hin')) as Hrow.
      apply (Hdisj _ Hin). apply list_elem_of_singleton.
      rewrite H. f_equal; congruence.
    + rewrite Hsplit, elem_of_app, list_elem_of_singleton.
      intros [[Hin|Hsq] Hneq]; [exact Hin|].
      injection Hsq as -> ->. congruence.
  - subst mirrored. split; [exact Hnd|].
    intros w h. split; [|tauto].
    intros Hin. split; [exact Hin|]. intros ->.
    pose proof (landscape_row_ok _ _ Hin) as Hrow.
    apply square_row_is_last in Hrow.
    apply elem_of_landscape in Hin as [_ Hh].
    apply Hne. rewrite Hhl, Hwl, <- Hrow, <- Hh. lia.
Qed.

Lemma resolution_elem_of (l : list (Z * Z)) (w h : Z) :
  calculate_resolution_array float64 A m r = Ok l ->
  (w, h) ∈ l <-> (w, h) ∈ Landscape \/ ((h, w) ∈ Landscape /\ h <> w).
Proof.
  intros (mirrored & -> & _ & Hmir)%resolution_decompose.
  rewrite elem_of_app, elem_of_reverse, list_elem_of_fmap.
  split; (intros [Hl|Hr]; [left; exact Hl | right]).
  - destruct Hr as ([a b] & [= -> ->] & Hin). apply Hmir, Hin.
  - exists (h, w). split; [reflexivity | apply Hmir, Hr].
Qed.

Lemma resolution_NoDup (l : list (Z * Z)) :
  calculate_resolution_array float64 A m r = Ok l -> NoDup l.
Proof.
  intros (mirrored & -> & Hnd & Hmir)%resolution_decompose.
  apply NoDup_app. split; [apply landscape_NoDup|]. split.
  - intros [a b] Hin Hin'.
    apply elem_of_reverse, list_elem_of_fmap in Hin'
      as ([c d] & [= -> ->] & [Hcd Hne]%Hmir).
    apply landscape_row_ok in Hin, Hcd.
    destruct Hin as [_ _ _ _ Hle _ _ _], Hcd as [_ _ _ _ Hle' _ _ _]. lia.
  - rewrite reverse_Permutation. apply NoDup_fmap_2; [|exact Hnd].
    intros [a b] [c d] [= -> ->]. reflexivity.
Qed.

End ResolutionFacts.

Lemma resolution_returns (float64 : Float64) (A m r : Z) :
  exact_when_small float64 -> 0 <= A < 2 ^ 52 ->
  0 < r -> m / r <= Z.sqrt A / r ->
  is_Ok (calculate_resolution_array float64 A m r).
Proof.
  intros Hfl HA Hr Hle. unfold calculate_resolution_array, last_item.
  rewrite (int_root_small _ Hfl) by exact HA.
  cbn [mbind result_bind].
  destruct (Z.eqb_spec r 0) as [|_]; [lia|].
  fold (widths A m r). rewrite fmap_last.
  destruct (last (widths A m r)) as [wl|] eqn:Hlast.
  - cbn [mbind result_bind fmap option_fmap option_map].
    destruct (_ =? 0); eexists; reflexivity.
  - apply last_None in Hlast. exfalso. revert Hlast.
    apply widths_nonempty; assumption.
Qed.

(** C1, as amended: for [0 < rounding <= min_minor_axis <=
    floor(sqrt(max_area))] and [max_area < 2^52] (where the float64 steps
    do not round) the call returns, and every emitted pair has width and
    height divisible by [rounding], area at most [max_area] and minor axis
    at least [min_minor_axis] rounded down to a multiple of [rounding]. *)
Theorem buckets_within_constraint
    (float64 : Float64) (max_area min_minor_axis rounding : Z) :
  exact_when_small float64 ->
  max_area < 2 ^ 52 ->
  0 < rounding -> rounding <= min_minor_axis ->
  min_minor_axis <= Z.sqrt max_area ->
  exists l,
    calculate_resolution_array float64 max_area min_minor_axis rounding = Ok l /\
    forall width height, (width, height) ∈ l ->
      width mod rounding = 0 /\ height mod rounding = 0 /\
      width * height <= max_area /\
      min_minor_axis / rounding * rounding <= Z.min width height.
Proof.
  intros Hfl Hsmall Hr Hm Hs.
  assert (HA : 0 <= max_area < 2 ^ 52).
  { split; [|assumption].
    destruct (Z.le_gt_cases 0 max_area) as [|Hneg]; [assumption|].
    rewrite Z.sqrt_neg in Hs by assumption. lia. }
  destruct (resolution_returns float64 max_area min_minor_axis rounding)
    as [l Hl]; [assumption.. | |].
  { apply Z.div_le_mono; lia. }
  exists l. split; [exact Hl|]. intros w h Hin.
  apply (resolution_elem_of _ _ _ _ Hr Hm Hfl HA _ _ _ Hl) in Hin.
  destruct Hin as [Hin|[Hin _]];
    apply (landscape_row_ok _ _ _ _ Hr Hm Hfl HA) in Hin;
    destruct Hin as [Hlo Hpos Hmod -> Hle Harea _ _];
    (repeat split; [ | | lia..]);
    first [exact Hmod | apply Z.mod_mul; lia].
Qed.

Lemma buckets_within_constraint_witness :
  exists l,
    calculate_resolution_array float64_small (512 ^ 2) 256 64 = Ok l /\
    forall width height, (width, height) ∈ l ->
      width mod 64 = 0 /\ height mod 64 = 0 /\
      width * height <= 512 ^ 2 /\ 256 / 64 * 64 <= Z.min width height.
Proof.
  apply (buckets_within_constraint float64_small (512 ^ 2) 256 64);
    [exact float64_small_exact | lia | lia | lia | vm_compute; discriminate].
Defined.

(** C1 as stated fails: with a lower bound of 300, which is not a multiple
    of the rounding 64, the first emitted bucket is (256, 1024), whose minor
    axis is below 300. *)
Lemma minimum_axis_not_met :
  0 < 64 /\ 300 <= Z.sqrt 262144 /\
  calculate_resolution_array float64_small 262144 300 64
  = Ok [(256, 1024); (320, 768); (384, 640); (448, 576); (512, 512);
        (576, 448); (640, 384); (768, 320); (1024, 256)] /\
  ~ (300 <= Z.min 256 1024).
Proof.
  split; [lia|]. split; [vm_compute; discriminate|].
  split; [vm_compute; reflexivity|]. vm_compute. intros H. apply H. reflexivity.
Qed.

(** C4, as amended: for [0 < rounding <= min_minor_axis] (no width is
    zero) and [0 <= max_area < 2^52] (the float64 steps do not round),
    every returned bucket, in the landscape half and in the mirrored half
    alike, has [height = floor((max_area / width) / rounding) *
    rounding]. *)
Theorem bucket_height_formula
    (float64 : Float64) (max_area min_minor_axis rounding : Z)
    (l : list (Z * Z)) :
  exact_when_small float64 ->
  0 <= max_area < 2 ^ 52 ->
  0 < rounding -> rounding <= min_minor_axis ->
  calculate_resolution_array float64 max_area min_minor_axis rounding = Ok l ->
  forall width height, (width, height) ∈ l ->
    height
    = Qfloor (inject_Z max_area / inject_Z width / inject_Z rounding) * rounding.
Proof.
  intros Hfl HA Hr Hm Hl w h Hin.
  apply (resolution_elem_of _ _ _ _ Hr Hm Hfl HA _ _ _ Hl) in Hin.
  destruct Hin as [Hin|[Hin _]];
    apply (landscape_row_ok _ _ _ _ Hr Hm Hfl HA) in Hin;
    destruct Hin as [_ Hpos Hmod Hh Hle Harea Htight _].
  - rewrite Qfloor_div_div by lia. exact Hh.
  - rewrite Qfloor_div_div by lia.
    apply Z.mod_divide in Hmod as [i Hi]; [|lia].
    rewrite Hi at 1. f_equal.
    apply Z.div_unique with (r := max_area - w * rounding * i); nia.
Qed.

Lemma bucket_height_formula_witness :
  calculate_resolution_array float64_small (576 ^ 2) 384 64
  = Ok [(384, 832); (448, 704); (512, 640); (576, 576);
        (640, 512); (704, 448); (832, 384)] /\
  forall width height,
    (width, height) ∈ [(384, 832); (448, 704); (512, 640); (576, 576);
                       (640, 512); (704, 448); (832, 384)] ->
    height = Qfloor (inject_Z (576 ^ 2) / inject_Z width / inject_Z 64) * 64.
Proof.
  split; [vm_compute; reflexivity|].
  apply (bucket_height_formula float64_small (576 ^ 2) 384 64);
    [exact float64_small_exact | lia | lia | lia | vm_compute; reflexivity].
Defined.

(** C4 as stated fails: with a lower bound of 0 the first width is 0, its
    height is the cast of NaN ([int64_min] on x86-64), and the mirrored
    half holds the bucket of width [int64_min] and height 0, where the
    formula gives [floor((262144 / int64_min) / 64) * 64 = -64]. *)
Lemma zero_width_breaks_formula :
  calculate_resolution_array float64_small 262144 0 64
  = Ok [(0, int64_min); (64, 4096); (128, 2048); (192, 1344); (256, 1024);
        (320, 768); (384, 640); (448, 576); (512, 512);
        (576, 448); (640, 384); (768, 320); (1024, 256); (1344, 192);
        (2048, 128); (4096, 64); (int64_min, 0)] /\
  Qfloor (inject_Z 262144 / inject_Z int64_min / inject_Z 64) * 64 = - 64 /\
  0 <> - 64.
Proof.
  split; [vm_compute; reflexivity|]. split; [vm_compute; reflexivity | lia].
Qed.

(** C5, as amended: for [0 < rounding <= min_minor_axis] and
    [0 <= max_area < 2^52] the returned list is symmetric under swap.
    Whenever it contains a non-square bucket [(w, h)] it contains [(h, w)]
    exactly once, and a square bucket it contains occurs exactly once. *)
Theorem bucket_list_symmetric
    (float64 : Float64) (max_area min_minor_axis rounding : Z)
    (l : list (Z * Z)) :
  exact_when_small float64 ->
  0 <= max_area < 2 ^ 52 ->
  0 < rounding -> rounding <= min_minor_axis ->
  calculate_resolution_array float64 max_area min_minor_axis rounding = Ok l ->
  forall w h, (w, h) ∈ l ->
    (w <> h -> occurrences (h, w) l = 1%nat) /\
    (w = h -> occurrences (w, h) l = 1%nat).
Proof.
  intros Hfl HA Hr Hm Hl w h Hin.
  pose proof (resolution_NoDup _ _ _ _ Hr Hm Hfl HA _ Hl) as Hnd.
  split; intros Hwh; apply occurrences_NoDup; try assumption.
  apply (resolution_elem_of _ _ _ _ Hr Hm Hfl HA _ _ _ Hl).
  apply (resolution_elem_of _ _ _ _ Hr Hm Hfl HA _ _ _ Hl) in Hin.
  destruct Hin as [Hin|[Hin _]]; [right | left]; auto.
Qed.

Lemma bucket_list_symmetric_witness :
  calculate_resolution_array float64_small (512 ^ 2) 256 64
  = Ok [(256, 1024); (320, 768); (384, 640); (448, 576); (512, 512);
        (576, 448); (640, 384); (768, 320); (1024, 256)] /\
  forall w h,
    (w, h) ∈ [(256, 1024); (320, 768); (384, 640); (448, 576); (512, 512);
              (576, 448); (640, 384); (768, 320); (1024, 256)] ->
    (w <> h ->
     occurrences (h, w)
       [(256, 1024); (320, 768); (384, 640); (448, 576); (512, 512);
        (576, 448); (640, 384); (768, 320); (1024, 256)] = 1%nat) /\
    (w = h ->
     occurrences (w, h)
       [(256, 1024); (320, 768); (384, 640); (448, 576); (512, 512);
        (576, 448); (640, 384); (768, 320); (1024, 256)] = 1%nat).
Proof.
  split; [vm_compute; reflexivity|].
  apply (bucket_list_symmetric float64_small (512 ^ 2) 256 64);
    [exact float64_small_exact | lia | lia | lia | vm_compute; reflexivity].
Defined.

(** C5 as stated fails: with a negative lower bound the widths are -64, 0
    and 64; the last row (64, 64) is square and left out of the mirrored
    half, but the first row (-64, -64) is square too and is mirrored, so it
    occurs twice. *)
Lemma negative_square_occurs_twice :
  calculate_resolution_array float64_small 4096 (- 64) 64
  = Ok [(- 64, - 64); (0, int64_min); (64, 64); (int64_min, 0);
        (- 64, - 64)] /\
  occurrences (- 64, - 64)
    [(- 64, - 64); (0, int64_min); (64, 64); (int64_min, 0); (- 64, - 64)]
  = 2%nat.
Proof. split; vm_compute; reflexivity. Qed.

(** ** Facts about the hidden-state reshape and the stitching *)

Section HiddenStatesFacts.
Context {Hidden : Type}.
Local Open Scope nat_scope.

Lemma chunks_length {A} (n c : nat) (l : list A) : length (chunks n c l) = c.
Proof. revert l. induction c as [|c IH]; intros l; cbn; [|rewrite IH]; reflexivity. Qed.

Lemma chunks_piece_length {A} (n c : nat) (l : list A) :
  c * n <= length l -> Forall (fun w => length w = n) (chunks n c l).
Proof.
  revert l. induction c as [|c IH]; intros l Hlen; cbn; constructor.
  - apply length_take_le. lia.
  - apply IH. rewrite length_drop. lia.
Qed.

Lemma chunks_Forall {A} (P : A -> Prop) (n c : nat) (l : list A) :
  Forall P l -> Forall (Forall P) (chunks n c l).
Proof.
  revert l. induction c as [|c IH]; intros l Hl; cbn; constructor.
  - apply Forall_take, Hl.
  - apply IH, Forall_drop, Hl.
Qed.

Lemma length_drop_last {A} (l : list A) : length (drop_last l) = length l - 1.
Proof.
  unfold drop_last. induction l as [|a [|b l] IH]; [reflexivity..|].
  change (removelast (a :: b :: l)) with (a :: removelast (b :: l)).
  cbn [length] in *. rewrite IH. lia.
Qed.

Lemma length_tail_pred {A} (l : list A) : length (tail l) = length l - 1.
Proof. destruct l; cbn; lia. Qed.

Lemma flatten_length_uniform {A} (n : nat) (ls : list (list A)) :
  Forall (fun w => length w = n) ls -> length (flatten ls) = length ls * n.
Proof.
  induction 1 as [|w ls Hw _ IH]; [reflexivity|].
  change (flatten (w :: ls)) with (w ++ flatten ls).
  rewrite length_app, IH, Hw. reflexivity.
Qed.

Lemma mapM_result_Forall {A B} (f : A -> result B) (P : B -> Prop) (l : list A) :
  Forall (fun x => exists y, f x = Ok y /\ P y) l ->
  exists out, mapM (M:=result) f l = Ok out /\ length out = length l /\ Forall P out.
Proof.
  induction 1 as [|x l (y & Hy & HP) _ (out & Hout & Hlen & HF)].
  - exists []. repeat split. constructor.
  - exists (y :: out). cbn. rewrite Hy. cbn.
    change (mapM f l) with (mapM (M:=result) f l). rewrite Hout. cbn.
    repeat split; [congruence | constructor; assumption].
Qed.

(** The length law of the stitching for two or more windows. *)
Lemma strip_bos_eos_length (L : nat) (windows : list (list Hidden)) :
  2 <= length windows ->
  Forall (fun w => length w = L) windows ->
  exists out,
    strip_bos_eos windows = Ok out /\
    length out = (L - 1) + (length windows - 2) * (L - 2) + (L - 1).
Proof.
  intros Hk HL. destruct windows as [|w1 rest]; [cbn in Hk; lia|].
  destruct (last rest) as [wk|] eqn:Hlast.
  2:{ apply last_None in Hlast. subst rest. cbn in Hk. lia. }
  pose proof (drop_last_snoc _ _ Hlast) as Hsplit.
  set (mid := drop_last rest) in *.
  assert (Hlast' : last (w1 :: rest) = Some wk).
  { rewrite Hsplit. rewrite app_comm_cons. apply last_snoc. }
  unfold strip_bos_eos, first_item, last_item. rewrite Hlast'.
  cbn [head mbind result_bind tail]. fold mid. eexists. split; [reflexivity|].
  apply Forall_cons in HL as [H1 Hrest]. rewrite Hsplit in Hrest.
  apply Forall_app in Hrest as [Hmid Hwk]. rewrite Forall_singleton in Hwk.
  cbv beta in H1.
  rewrite !length_app, length_drop_last, length_tail_pred, H1, Hwk.
  rewrite (flatten_length_uniform (L - 2)).
  - rewrite length_fmap. cbn [length]. rewrite Hsplit at 1.
    rewrite length_app. cbn [length]. lia.
  - apply Forall_fmap. eapply Forall_impl; [exact Hmid|].
    intros w Hw. cbn. rewrite length_drop_last, length_tail_pred, Hw. lia.
Qed.

Lemma reshape_windows_ok (batch n : nat) (encoder_output : list (list Hidden)) :
  0 < batch ->
  length (flatten encoder_output) = batch * n ->
  n mod window_len = 0 ->
  exists hidden_states,
    reshape_windows batch encoder_output = Ok hidden_states /\
    length hidden_states = batch /\
    Forall (fun example =>
              length example = n / window_len /\
              Forall (fun window => length window = window_len) example)
           hidden_states.
Proof.
  intros Hb Hlen Hmod. unfold reshape_windows.
  destruct (decide (batch = 0)) as [|_]; [lia|].
  apply Nat.Div0.div_exact in Hmod.
  set (k := n / window_len) in *.
  assert (Htotal : length (flatten encoder_output) = batch * window_len * k)
    by (rewrite Hlen, Hmod; lia).
  assert (Hk : length (flatten encoder_output) / (batch * window_len) = k).
  { rewrite Htotal, Nat.mul_comm. apply Nat.div_mul. unfold window_len. lia. }
  destruct (decide (_ mod _ = 0)) as [_|Hne].
  2:{ exfalso. apply Hne. rewrite Htotal, Nat.mul_comm.
      apply Nat.Div0.mod_mul. }
  rewrite Hk. eexists. split; [reflexivity|].
  split; [apply chunks_length|].
  apply Forall_and. split.
  - apply chunks_piece_length. rewrite chunks_length. lia.
  - apply chunks_Forall, chunks_piece_length. rewrite Htotal. lia.
Qed.

Lemma reshape_windows_invalid (batch n : nat) (encoder_output : list (list Hidden)) :
  length (flatten encoder_output) = batch * n ->
  n mod window_len <> 0 ->
  reshape_windows batch encoder_output = Raise ReshapeError.
Proof.
  intros Hlen Hmod. unfold reshape_windows.
  destruct (decide (batch = 0)) as [|Hb]; [reflexivity|].
  destruct (decide (_ mod _ = 0)) as [Hz|_]; [|reflexivity].
  exfalso. apply Hmod. rewrite Hlen in Hz.
  apply Nat.Lcm0.mod_divide in Hz. destruct Hz as [q Hq].
  apply Nat.Lcm0.mod_divide. exists q.
  apply (Nat.mul_cancel_l _ _ batch); [assumption|]. lia.
Qed.

(** C2, the single-window case on the code: with one window the first and
    the last window are the same one, so the stitched sequence is that
    window without its last token followed by the same window without its
    first token. It has [2 * (L - 1)] tokens, not [L - 2]. *)
Theorem single_window_is_doubled (window : list Hidden) :
  strip_bos_eos [window] = Ok (drop_last window ++ tail window) /\
  length (drop_last window ++ tail window) = 2 * (length window - 1).
Proof.
  split; [reflexivity|].
  rewrite length_app, length_drop_last, length_tail_pred. lia.
Qed.

(** C8: the reshape of [compute_loss] cuts windows of 77 tokens whatever
    the width [cols] of the encoder output is. With [n] tokens per example,
    the reshape is invalid when 77 does not divide [n]; otherwise every
    example has [n / 77] windows of 77 tokens, and for two or more windows
    the stitched length follows the law with [L = 77]. *)
Theorem reshape_window_is_77
    (batch rows cols n : nat) (encoder_output : list (list Hidden)) :
  0 < batch ->
  length encoder_output = rows ->
  Forall (fun tokens => length tokens = cols) encoder_output ->
  rows * cols = batch * n ->
  (n mod 77 <> 0 -> reshape_windows batch encoder_output = Raise ReshapeError) /\
  (n mod 77 = 0 ->
   exists hidden_states,
     reshape_windows batch encoder_output = Ok hidden_states /\
     length hidden_states = batch /\
     Forall (fun example =>
               length example = n / 77 /\
               Forall (fun window => length window = 77) example)
            hidden_states /\
     (2 <= n / 77 ->
      exists stitched,
        stitch_windows true hidden_states = Ok stitched /\
        length stitched = batch /\
        Forall (fun tokens =>
                  length tokens = (77 - 1) + (n / 77 - 2) * (77 - 2) + (77 - 1))
               stitched)).
Proof.
  intros Hb Hrows Hcols Htotal.
  assert (Hlen : length (flatten encoder_output) = batch * n).
  { rewrite (flatten_length_uniform cols) by exact Hcols. lia. }
  split; [apply reshape_windows_invalid; exact Hlen|].
  intros Hmod.
  destruct (reshape_windows_ok batch n encoder_output Hb Hlen Hmod)
    as (hidden_states & Hok & Hlength & Hshape).
  exists hidden_states. repeat split; try assumption.
  intros Hk. unfold stitch_windows.
  destruct (mapM_result_Forall strip_bos_eos
              (fun tokens =>
                 length tokens = (77 - 1) + (n / 77 - 2) * (77 - 2) + (77 - 1))
              hidden_states) as (stitched & Hst & Hlen' & Hall).
  - eapply Forall_impl; [exact Hshape|]. intros example [Hex Hwin].
    destruct (strip_bos_eos_length 77 example) as (out & Hout & Hlo);
      [unfold window_len in *; lia | exact Hwin |].
    exists out. split; [exact Hout|]. rewrite Hlo, Hex. reflexivity.
  - exists stitched. repeat split; [exact Hst | lia | exact Hall].
Qed.

End HiddenStatesFacts.

Example single_window_77 :
  (reshape_windows 1 [seq 0 77] ≫= stitch_windows true)
  = Ok [seq 0 76 ++ seq 1 76].
Proof. vm_compute. reflexivity. Qed.

Example three_windows_stitched :
  strip_bos_eos [[10; 11; 12]; [20; 21; 22]; [30; 31; 32]]%nat
  = Ok [10; 11; 21; 31; 32]%nat.
Proof. reflexivity. Qed.

(** The reshape succeeds on encoder rows of 11 tokens and fails on rows of
    10 tokens: only the total per example matters, against the literal 77. *)
Lemma reshape_window_is_77_witness :
  (exists hidden_states : list (list (list unit)),
     reshape_windows 1 (replicate 14 (replicate 11 ())) = Ok hidden_states /\
     length hidden_states = 1%nat /\
     Forall (fun example =>
               length example = (154 / 77)%nat /\
               Forall (fun window => length window = 77%nat) example)
            hidden_states /\
     ((2 <= 154 / 77)%nat ->
      exists stitched,
        stitch_windows true hidden_states = Ok stitched /\
        length stitched = 1%nat /\
        Forall (fun tokens =>
                  length tokens
                  = ((77 - 1) + (154 / 77 - 2) * (77 - 2) + (77 - 1))%nat)
               stitched)) /\
  reshape_windows 1 (replicate 3 (replicate 10 ())) = Raise ReshapeError.
Proof.
  split.
  - apply (reshape_window_is_77 1 14 11 154 (replicate 14 (replicate 11 ())));
      [lia | reflexivity | repeat constructor | reflexivity | reflexivity].
  - apply (reshape_window_is_77 1 3 10 30 (replicate 3 (replicate 10 ())));
      [lia | reflexivity | repeat constructor | reflexivity
      | vm_compute; discriminate].
Defined.

(** ** Facts about [train_step] *)

Section TrainStepFacts.
Context {Tensor Hidden Rng Timesteps Params SchedState OptState Scalar : Type}.

Variable random_split3 : Rng -> Rng * Rng * Rng.
Variable random_normal : Rng -> Tensor -> Tensor.
Variable random_normal_offset : Rng -> Tensor -> Tensor.
Variable random_randint : Rng -> nat -> Z -> Z -> Timesteps.
Variable transpose_nchw : Tensor -> Tensor.
Variable scale : Q -> Tensor -> Tensor.
Variable add : Tensor -> Tensor -> Tensor.
Variable shape0 : Tensor -> nat.
Variable mean_squared_error : Tensor -> Tensor -> Scalar.
Variable grad01 :
  (Params -> Params -> result Scalar) -> Params -> Params -> Params * Params.
Variable tx_step :
  GradientTransformation -> Params -> OptState -> Params -> Params * OptState.

Local Abbreviation Step :=
  (train_step (Hidden:=Hidden) random_split3 random_normal random_normal_offset
     random_randint transpose_nchw scale add shape0 mean_squared_error grad01
     tx_step).

(** The latents that [compute_loss] derives from the batch. *)
Local Abbreviation latents_of vae batch train_rng :=
  (scale (18215 # 100000)
     (transpose_nchw
        (FrozenModel.call vae (FrozenModel.params vae) (pixel_values batch)
           (snd (fst (random_split3 train_rng)))))).

(** The stitched hidden states that [compute_loss] passes to the denoiser. *)
Local Abbreviation hidden_of text_encoder_state vae batch train_rng strip :=
  (reshape_windows (shape0 (latents_of vae batch train_rng))
     (TrainState.apply_fn text_encoder_state
        (TrainState.params text_encoder_state) (input_ids batch)
        (fst (fst (random_split3 train_rng))))
   ≫= stitch_windows strip).

(** The noise that [compute_loss] draws, the one it passes to
    [add_noise]. *)
Local Abbreviation noise_of vae batch train_rng use_offset_noise :=
  (if use_offset_noise : bool
   then
     add
       (random_normal
          (snd (fst (random_split3 (snd (fst (random_split3 train_rng))))))
          (latents_of vae batch train_rng))
       (scale (1 # 10)
          (random_normal_offset
             (fst (fst (random_split3 (snd (fst (random_split3 train_rng))))))
             (latents_of vae batch train_rng)))
   else
     random_normal
       (snd (fst (random_split3 (snd (fst (random_split3 train_rng))))))
       (latents_of vae batch train_rng)).

(** The timesteps that [compute_loss] draws. *)
Local Abbreviation timesteps_of scheduler vae batch train_rng :=
  (random_randint
     (snd (random_split3 (snd (fst (random_split3 train_rng)))))
     (shape0 (latents_of vae batch train_rng)) 0
     (num_train_timesteps (FrozenModel.call scheduler))).

(** The prediction of the denoiser on the noised latents. *)
Local Abbreviation model_pred_of
    unet_state scheduler vae batch train_rng use_offset_noise hidden :=
  (TrainState.apply_fn unet_state (TrainState.params unet_state)
     (add_noise (FrozenModel.call scheduler) (FrozenModel.params scheduler)
        (latents_of vae batch train_rng)
        (noise_of vae batch train_rng use_offset_noise)
        (timesteps_of scheduler vae batch train_rng))
     (timesteps_of scheduler vae batch train_rng) hidden).

(** The loss that [train_step] evaluates: [compute_loss] at the parameters
    of the two states. *)
Local Abbreviation loss_of
    unet_state text_encoder_state vae scheduler use_offset_noise strip
    batch train_rng :=
  (compute_loss (Hidden:=Hidden) random_split3 random_normal
     random_normal_offset random_randint transpose_nchw scale add shape0
     mean_squared_error unet_state text_encoder_state vae scheduler
     use_offset_noise strip
     (fst (fst (random_split3 train_rng)))
     (snd (fst (random_split3 train_rng)))
     (TrainState.params unet_state) (TrainState.params text_encoder_state)
     (FrozenModel.params vae) (FrozenModel.params scheduler) batch).

(** The loss once the hidden states are built: the mean squared error of
    the selected target and the prediction. *)
Lemma compute_loss_target
    (unet_state : TrainState.t (UNetFn (Hidden:=Hidden)) Params OptState)
    (text_encoder_state : TrainState.t TextEncoderFn Params OptState)
    (batch : Batch) (train_rng : Rng)
    (frozen_vae_state : FrozenModel.t VaeFn Params)
    (scheduler : FrozenModel.t Scheduler SchedState)
    (use_offset_noise strip_bos_eos_token : bool)
    (hidden : list (list Hidden)) :
  hidden_of text_encoder_state frozen_vae_state batch train_rng
    strip_bos_eos_token = Ok hidden ->
  loss_of unet_state text_encoder_state frozen_vae_state scheduler
    use_offset_noise strip_bos_eos_token batch train_rng
  = (target ← regression_target scheduler
                (latents_of frozen_vae_state batch train_rng)
                (noise_of frozen_vae_state batch train_rng use_offset_noise)
                (timesteps_of scheduler frozen_vae_state batch train_rng);
     Ok (mean_squared_error target
           (model_pred_of unet_state scheduler frozen_vae_state batch
              train_rng use_offset_noise hidden))).
Proof.
  unfold compute_loss.
  destruct (random_split3 train_rng) as [[dropout_rng sample_rng] new_rng].
  cbn [fst snd].
  destruct (random_split3 sample_rng)
    as [[noise_offset_rng noise_rng] timestep_rng].
  cbn [fst snd].
  destruct (reshape_windows _ _) as [windows|e1]; [|discriminate].
  cbn [mbind result_bind]. intros ->. cbn [mbind result_bind].
  destruct use_offset_noise; reflexivity.
Qed.

(** [train_step] raises whatever [compute_loss] raises. *)
Lemma train_step_loss_error
    (unet_state : TrainState.t (UNetFn (Hidden:=Hidden)) Params OptState)
    (text_encoder_state : TrainState.t TextEncoderFn Params OptState)
    (batch : Batch) (train_rng : Rng)
    (frozen_vae_state : FrozenModel.t VaeFn Params)
    (scheduler : FrozenModel.t Scheduler SchedState)
    (use_offset_noise strip_bos_eos_token : bool) (e : exn) :
  loss_of unet_state text_encoder_state frozen_vae_state scheduler
    use_offset_noise strip_bos_eos_token batch train_rng = Raise e ->
  Step unet_state text_encoder_state batch train_rng frozen_vae_state
    scheduler use_offset_noise strip_bos_eos_token = Raise e.
Proof.
  unfold train_step.
  destruct (random_split3 train_rng) as [[dropout_rng sample_rng] new_rng].
  cbn [fst snd]. intros ->. reflexivity.
Qed.

(** For an unknown prediction type [compute_loss] raises in every case: in
    the reshape, in the stitching, or in the selection of the target. *)
Lemma unknown_prediction_loss_error
    (unet_state : TrainState.t (UNetFn (Hidden:=Hidden)) Params OptState)
    (text_encoder_state : TrainState.t TextEncoderFn Params OptState)
    (batch : Batch) (train_rng : Rng)
    (frozen_vae_state : FrozenModel.t VaeFn Params)
    (scheduler : FrozenModel.t Scheduler SchedState)
    (use_offset_noise strip_bos_eos_token : bool) :
  prediction_type (FrozenModel.call scheduler) <> "epsilon"%string ->
  prediction_type (FrozenModel.call scheduler) <> "v_prediction"%string ->
  is_Raise
    (loss_of unet_state text_encoder_state frozen_vae_state scheduler
       use_offset_noise strip_bos_eos_token batch train_rng).
Proof.
  intros He Hv.
  destruct (hidden_of text_encoder_state frozen_vae_state batch train_rng
              strip_bos_eos_token) as [hidden|e] eqn:Hhidden.
  - rewrite (compute_loss_target _ _ _ _ _ _ _ _ _ Hhidden).
    unfold regression_target.
    destruct (decide (_ = "epsilon"%string)) as [|_]; [contradiction|].
    destruct (decide (_ = "v_prediction"%string)) as [|_]; [contradiction|].
    eexists. reflexivity.
  - revert Hhidden. unfold compute_loss.
    destruct (random_split3 train_rng) as [[dropout_rng sample_rng] new_rng].
    cbn [fst snd].
    destruct (random_split3 sample_rng)
      as [[noise_offset_rng noise_rng] timestep_rng].
    destruct (reshape_windows _ _) as [windows|e1].
    + cbn [mbind result_bind]. intros ->. eexists. reflexivity.
    + intros _. eexists. reflexivity.
Qed.

(** C3, as amended. Once the hidden states are built, the loss is the mean
    squared error between the prediction and a target that is, for
    ["epsilon"], the very noise that was passed to [add_noise], and for
    ["v_prediction"] the scheduler's velocity of (latents, noise,
    timesteps); for any other prediction type the loss, and with it
    [train_step], raises [ValueError]. Whether or not the hidden states are
    built, [train_step] raises for an unknown prediction type: it returns
    no states. *)
Theorem prediction_target_selection
    (unet_state : TrainState.t (UNetFn (Hidden:=Hidden)) Params OptState)
    (text_encoder_state : TrainState.t TextEncoderFn Params OptState)
    (batch : Batch) (train_rng : Rng)
    (frozen_vae_state : FrozenModel.t VaeFn Params)
    (scheduler : FrozenModel.t Scheduler SchedState)
    (use_offset_noise strip_bos_eos_token : bool) :
  (forall hidden : list (list Hidden),
     hidden_of text_encoder_state frozen_vae_state batch train_rng
       strip_bos_eos_token = Ok hidden ->
     (prediction_type (FrozenModel.call scheduler) = "epsilon"%string ->
      loss_of unet_state text_encoder_state frozen_vae_state scheduler
        use_offset_noise strip_bos_eos_token batch train_rng
      = Ok (mean_squared_error
              (noise_of frozen_vae_state batch train_rng use_offset_noise)
              (model_pred_of unet_state scheduler frozen_vae_state batch
                 train_rng use_offset_noise hidden))) /\
     (prediction_type (FrozenModel.call scheduler) = "v_prediction"%string ->
      loss_of unet_state text_encoder_state frozen_vae_state scheduler
        use_offset_noise strip_bos_eos_token batch train_rng
      = Ok (mean_squared_error
              (get_velocity (FrozenModel.call scheduler)
                 (FrozenModel.params scheduler)
                 (latents_of frozen_vae_state batch train_rng)
                 (noise_of frozen_vae_state batch train_rng use_offset_noise)
                 (timesteps_of scheduler frozen_vae_state batch train_rng))
              (model_pred_of unet_state scheduler frozen_vae_state batch
                 train_rng use_offset_noise hidden))) /\
     (prediction_type (FrozenModel.call scheduler) <> "epsilon"%string ->
      prediction_type (FrozenModel.call scheduler) <> "v_prediction"%string ->
      Step unet_state text_encoder_state batch train_rng frozen_vae_state
        scheduler use_offset_noise strip_bos_eos_token
      = Raise (ValueError ("Unknown prediction type "
                           +:+ prediction_type (FrozenModel.call scheduler)))))
  /\
  (prediction_type (FrozenModel.call scheduler) <> "epsilon"%string ->
   prediction_type (FrozenModel.call scheduler) <> "v_prediction"%string ->
   is_Raise
     (Step unet_state text_encoder_state batch train_rng frozen_vae_state
        scheduler use_offset_noise strip_bos_eos_token)).
Proof.
  split.
  - intros hidden Hhidden.
    pose proof (compute_loss_target unet_state _ _ _ _ scheduler
                  use_offset_noise _ _ Hhidden) as Hloss.
    unfold regression_target in Hloss. repeat split.
    + intros Heq. rewrite Hloss.
      destruct (decide (_ = "epsilon"%string)) as [_|]; [|contradiction].
      reflexivity.
    + intros Heq. rewrite Hloss.
      destruct (decide (_ = "epsilon"%string)) as [Heps|_].
      { rewrite Heq in Heps. discriminate. }
      destruct (decide (_ = "v_prediction"%string)) as [_|]; [|contradiction].
      reflexivity.
    + intros He Hv. apply train_step_loss_error. rewrite Hloss.
      destruct (decide (_ = "epsilon"%string)) as [|_]; [contradiction|].
      destruct (decide (_ = "v_prediction"%string)) as [|_]; [contradiction|].
      reflexivity.
  - intros He Hv.
    destruct (unknown_prediction_loss_error unet_state text_encoder_state
                batch train_rng frozen_vae_state scheduler use_offset_noise
                strip_bos_eos_token He Hv) as [e Hloss].
    exists e. apply train_step_loss_error, Hloss.
Qed.

End TrainStepFacts.

Example example_train_step_runs :
  example_train_step example_batch (example_scheduler "v_prediction")
  = Ok (TrainState.Build 1 (TrainState.apply_fn example_unet_state) ()
          (TrainState.tx example_unet_state) (),
        TrainState.Build 1 (TrainState.apply_fn example_text_encoder_state) ()
          (TrainState.tx example_text_encoder_state) (),
        4, ()).
Proof. vm_compute. reflexivity. Qed.

Lemma prediction_target_selection_witness :
  example_compute_loss example_batch (example_scheduler "epsilon") = Ok 1 /\
  example_compute_loss example_batch (example_scheduler "v_prediction") = Ok 4 /\
  example_train_step example_batch (example_scheduler "sample")
  = Raise (ValueError "Unknown prediction type sample").
Proof.
  pose (selection :=
    fun scheduler : FrozenModel.t (NoiseScheduler Z unit unit) unit =>
    proj1
      (prediction_target_selection (fun _ => ((), (), ()))
         (fun _ latents => latents) (fun _ latents => latents)
         (fun _ _ _ _ => ()) (fun x => x) (fun _ x => x) Z.add
         (fun _ => 1%nat) (fun target pred => (target - pred) ^ 2)
         (fun _ _ _ => ((), ()))
         (fun _ _ opt_state params => (params, opt_state))
         example_unet_state example_text_encoder_state example_batch ()
         example_vae_state scheduler false true)
      [replicate 152 ()]
      eq_refl).
  split; [exact (proj1 (selection (example_scheduler "epsilon")) eq_refl)|].
  split; [exact (proj1 (proj2 (selection (example_scheduler "v_prediction")))
                   eq_refl)|].
  apply (proj2 (proj2 (selection (example_scheduler "sample"))));
    discriminate.
Defined.

(** C3 as stated fails: with the unknown prediction type ["sample"] and a
    batch of 76 tokens, which do not fill a window of 77, [train_step]
    raises in the reshape, before the prediction type is looked at, and the
    exception is not the [ValueError] of the selection. *)
Lemma unknown_prediction_reshape_error :
  prediction_type (FrozenModel.call (example_scheduler "sample"))
  = "sample"%string /\
  example_train_step short_batch (example_scheduler "sample")
  = Raise ReshapeError /\
  ReshapeError <> ValueError "Unknown prediction type sample".
Proof.
  split; [reflexivity|]. split; [vm_compute; reflexivity | discriminate].
Qed.

(** ** Facts about the construction of the states *)

Section StatesFacts.
Context {UNet Vae TextEncoder Scheduler Params SchedState OptState : Type}.

Variable tx_init : GradientTransformation -> Params -> OptState.
Variable load_models :
  string -> Models UNet Vae TextEncoder Scheduler Params SchedState.

(** C9: [FrozenModel.create] raises [NameError] for the name [call] on
    every input, and never reads [apply_fn]; [create_frozen_states] builds
    both frozen models with the constructor. *)
Theorem frozen_model_create_raises {C P : Type} (apply_fn : C) (params : P)
    (models : Models UNet Vae TextEncoder Scheduler Params SchedState) :
  FrozenModel.create apply_fn params = Raise (NameError "call") /\
  create_frozen_states models
  = (FrozenModel.Build (vae_model models) (vae_params models),
     FrozenModel.Build (noise_scheduler_object models)
       (noise_scheduler_state models)).
Proof. split; [vm_compute|]; reflexivity. Qed.

(** C10: whatever the configuration, the call returns, and both optimizer
    chains are built with the scale factor 7 and the learning rate 1e-6;
    only [model_path] is read, so two configurations with the same path
    give the same states. *)
Theorem training_state_ignores_rates (training_config : TrainingConfig) :
  on_device_model_training_state tx_init load_models training_config
  = Ok
      (Some (TrainState.create tx_init
               (unet_model (load_models (model_path training_config)))
               (unet_params (load_models (model_path training_config)))
               {| clip_by_global_norm := 1;
                  learning_rate_schedule := (1 # 1000000) / 7;
                  b1 := 9 # 10;
                  b2 := 99 # 100;
                  weight_decay := (1 # 100) * 7 |}),
       Some (TrainState.create tx_init
               (text_encoder_model (load_models (model_path training_config)))
               (text_encoder_params (load_models (model_path training_config)))
               {| clip_by_global_norm := 1;
                  learning_rate_schedule := (1 # 1000000) / 7;
                  b1 := 9 # 10;
                  b2 := 99 # 100;
                  weight_decay := (1 # 100) * 7 |}),
       FrozenModel.Build
         (vae_model (load_models (model_path training_config)))
         (vae_params (load_models (model_path training_config))),
       FrozenModel.Build
         (noise_scheduler_object (load_models (model_path training_config)))
         (noise_scheduler_state (load_models (model_path training_config)))) /\
  forall other : TrainingConfig,
    model_path other = model_path training_config ->
    on_device_model_training_state tx_init load_models other
    = on_device_model_training_state tx_init load_models training_config.
Proof.
  split; [reflexivity|].
  intros other Hpath. unfold on_device_model_training_state.
  rewrite Hpath. reflexivity.
Qed.

End StatesFacts.

(** ** Facts about [dp_compile_all_unique_resolution] *)

Lemma mapM_result_Forall2 {A B} (f : A -> result B) (l : list A) (out : list B) :
  mapM (M:=result) f l = Ok out -> Forall2 (fun x y => f x = Ok y) l out.
Proof.
  revert out. induction l as [|x l IH]; intros out; cbn.
  - intros [= <-]. constructor.
  - destruct (f x) as [y|e] eqn:Hy; cbn; [|discriminate].
    change ((fix go (l0 : list A) : result (list B) :=
               match l0 with
               | [] => mret []
               | x0 :: l1 => y0 ← f x0; k ← go l1; mret (y0 :: k)
               end) l) with (mapM (M:=result) f l).
    destruct (mapM f l) as [k|e]; cbn; [|discriminate].
    intros [= <-]. constructor; auto.
Qed.

Section SetSizes.
Context {K : Type} `{!EqDecision K} `{!Countable K}.
Local Open Scope nat_scope.

Lemma size_list_to_set_le (l : list K) :
  size (list_to_set l : gset K) <= length l.
Proof.
  induction l as [|a l IH]; cbn; [rewrite size_empty; lia|].
  rewrite size_union_alt, size_singleton.
  assert (size ((list_to_set l : gset K) ∖ {[a]}) <= size (list_to_set l : gset K))
    by (apply subseteq_size; intros x Hx; apply elem_of_difference in Hx; tauto).
  lia.
Qed.

Lemma size_list_to_set_lt (l : list K) :
  ~ NoDup l -> size (list_to_set l : gset K) < length l.
Proof.
  induction l as [|a l IH]; intros Hdup; [destruct Hdup; constructor|].
  cbn. destruct (decide (a ∈ l)) as [Hin|Hnin].
  - replace ({[a]} ∪ list_to_set l : gset K) with (list_to_set l : gset K).
    2:{ apply set_eq. intros x.
        rewrite elem_of_union, elem_of_singleton, elem_of_list_to_set.
        split; [auto | intros [->|]; auto]. }
    pose proof (size_list_to_set_le l). lia.
  - assert (Hl : ~ NoDup l) by (intros Hnd; apply Hdup; constructor; assumption).
    apply IH in Hl. rewrite size_union, size_singleton; [lia|].
    apply disjoint_singleton_l. rewrite elem_of_list_to_set. exact Hnin.
Qed.

End SetSizes.

Lemma zip_take_min {A B} (l : list A) (k : list B) :
  zip (take (length l `min` length k) l) (take (length l `min` length k) k)
  = zip l k.
Proof.
  revert k. induction l as [|a l IH]; intros [|b k]; cbn; try reflexivity.
  f_equal. apply IH.
Qed.

Section CompileFacts.
Context {Lowered Executable : Type}.
Local Open Scope nat_scope.

Variable float64 : Float64.
Variable lower : BatchShape -> result Lowered.
Variable compile : Lowered -> option Executable.
Variable jobs : list (Lowered * (Z * Z * Z * Z)).

Local Abbreviation Cache := (gmap (Z * Z * Z * Z) (Compiled Executable)).
Local Abbreviation worker := (_compile_unique_res_train_step compile jobs).

Lemma worker_keeps (cache : Cache) (i : nat) (key : Z * Z * Z * Z) :
  is_Some (cache !! key) -> is_Some (worker cache i !! key).
Proof.
  intros Hsome. unfold _compile_unique_res_train_step.
  destruct (jobs !! i) as [[HLO resolution]|]; [|exact Hsome].
  destruct (compile HLO); [|exact Hsome].
  apply lookup_insert_is_Some. destruct (decide (resolution = key)); auto.
Qed.

Lemma workers_keep (order : list nat) (cache : Cache) (key : Z * Z * Z * Z) :
  is_Some (cache !! key) -> is_Some (foldl worker cache order !! key).
Proof.
  revert cache. induction order as [|i order IH]; intros cache Hsome; cbn;
    [exact Hsome|].
  apply IH, worker_keeps, Hsome.
Qed.

Lemma worker_other_key (cache : Cache) (i : nat) (key : Z * Z * Z * Z) :
  (forall HLO, jobs !! i <> Some (HLO, key)) ->
  worker cache i !! key = cache !! key.
Proof.
  intros Hne. unfold _compile_unique_res_train_step.
  destruct (jobs !! i) as [[HLO resolution]|]; [|reflexivity].
  destruct (compile HLO); [|reflexivity].
  apply lookup_insert_ne. intros ->. exact (Hne HLO eq_refl).
Qed.

Lemma workers_other_key (order : list nat) (cache : Cache) (key : Z * Z * Z * Z) :
  (forall j HLO, j ∈ order -> jobs !! j <> Some (HLO, key)) ->
  foldl worker cache order !! key = cache !! key.
Proof.
  revert cache. induction order as [|i order IH]; intros cache Hne; cbn;
    [reflexivity|].
  rewrite IH by (intros j HLO Hj; apply Hne; right; exact Hj).
  apply worker_other_key. intros HLO. apply Hne. left.
Qed.

(** The store that takes place last for a key decides the entry. *)
Lemma last_store_wins (before after : list nat) (i : nat) (cache : Cache)
    (HLO : Lowered) (key : Z * Z * Z * Z) (exe : Executable) :
  jobs !! i = Some (HLO, key) ->
  compile HLO = Some exe ->
  (forall j HLO', j ∈ after -> jobs !! j <> Some (HLO', key)) ->
  foldl worker cache (before ++ i :: after) !! key
  = Some {| compiled_by := i; executable := exe |}.
Proof.
  intros Hjob Hexe Hafter. rewrite foldl_app. cbn.
  rewrite workers_other_key by exact Hafter.
  unfold _compile_unique_res_train_step. rewrite Hjob, Hexe.
  apply lookup_insert_eq.
Qed.

Lemma workers_store (order : list nat) (cache : Cache) (i : nat)
    (HLO : Lowered) (key : Z * Z * Z * Z) :
  i ∈ order -> jobs !! i = Some (HLO, key) -> is_Some (compile HLO) ->
  is_Some (foldl worker cache order !! key).
Proof.
  intros Hin Hjob [exe Hexe]. revert cache.
  induction order as [|j order IH]; intros cache; [inversion Hin|].
  apply elem_of_cons in Hin as [<-|Hin]; cbn; [|apply IH, Hin].
  apply workers_keep. unfold _compile_unique_res_train_step.
  rewrite Hjob, Hexe, lookup_insert_eq. eauto.
Qed.

Lemma workers_origin (order : list nat) (cache : Cache) (key : Z * Z * Z * Z) :
  is_Some (foldl worker cache order !! key) ->
  is_Some (cache !! key) \/ exists i HLO, jobs !! i = Some (HLO, key).
Proof.
  revert cache. induction order as [|j order IH]; intros cache; cbn; [auto|].
  intros [Hsome|Hjob]%IH; [|auto].
  unfold _compile_unique_res_train_step in Hsome.
  destruct (jobs !! j) as [[HLO resolution]|] eqn:Hj; [|auto].
  destruct (compile HLO); [|auto].
  apply lookup_insert_is_Some in Hsome as [->|[_ Hsome]]; eauto.
Qed.

(** With every compilation succeeding and every worker storing once, the
    dictionary has one entry per distinct shape. *)
Lemma workers_size (order : list nat) :
  order ≡ₚ seq 0 (length jobs) ->
  (forall HLO key, (HLO, key) ∈ jobs -> is_Some (compile HLO)) ->
  size (foldl worker (∅ : Cache) order)
  = size (list_to_set (snd <$> jobs) : gset (Z * Z * Z * Z)).
Proof.
  intros Hperm Hcompile. rewrite <- size_dom. f_equal.
  apply set_eq. intros key.
  rewrite elem_of_dom, elem_of_list_to_set, list_elem_of_fmap. split.
  - intros [Hempty|(i & HLO & Hjob)]%workers_origin.
    + rewrite lookup_empty in Hempty. destruct Hempty; discriminate.
    + exists (HLO, key). split; [reflexivity|].
      apply list_elem_of_lookup. eauto.
  - intros ([HLO key'] & -> & Hin). cbn.
    pose proof Hin as (i & Hi)%list_elem_of_lookup.
    apply (workers_store order ∅ i HLO); [|exact Hi|eapply Hcompile, Hin].
    rewrite Hperm. apply elem_of_seq. apply lookup_lt_Some in Hi. lia.
Qed.

End CompileFacts.

Section CompileClaims.
Context {Lowered Executable : Type}.
Local Open Scope nat_scope.

Variable float64 : Float64.
Variable lower : BatchShape -> result Lowered.
Variable compile : Lowered -> option Executable.

Local Abbreviation key_of config bucket :=
  (pixel_values_shape (dummy_batch_shape config bucket)).

Lemma key_of_inj (training_config : TrainingConfig) (b b' : Z * Z) :
  key_of training_config b = key_of training_config b' -> b = b'.
Proof. destruct b, b'. cbn. intros [= -> ->]. reflexivity. Qed.

Lemma lowered_jobs (training_config : TrainingConfig)
    (buckets : list (Z * Z)) (jobs : list (Lowered * (Z * Z * Z * Z))) :
  mapM (M:=result) (_create_lowered_hlo lower training_config) buckets = Ok jobs ->
  Forall2 (fun bucket job =>
             lower (dummy_batch_shape training_config bucket) = Ok (fst job) /\
             snd job = key_of training_config bucket)
          buckets jobs.
Proof.
  intros Hjobs%mapM_result_Forall2.
  eapply Forall2_impl; [exact Hjobs|].
  intros bucket job. unfold _create_lowered_hlo.
  destruct (lower _) as [HLO|e]; cbn; [|discriminate].
  intros [= <-]. auto.
Qed.

(** C6, as amended: when every compilation succeeds, the returned
    dictionary has exactly N entries for N pairwise distinct buckets and
    fewer than N when a bucket is repeated; the entry left for a repeated
    bucket is the one of the worker that stored last, whatever its position
    in the bucket list. *)
Theorem cache_entries (training_config : TrainingConfig)
    (completion_order : list nat) (buckets : list (Z * Z))
    (cache : gmap (Z * Z * Z * Z) (Compiled Executable)) :
  all_possible_resolution float64 training_config = Ok buckets ->
  completion_order ≡ₚ seq 0 (length buckets) ->
  (forall bucket HLO,
     bucket ∈ buckets ->
     lower (dummy_batch_shape training_config bucket) = Ok HLO ->
     is_Some (compile HLO)) ->
  dp_compile_all_unique_resolution float64 lower compile training_config
    completion_order = Ok cache ->
  (NoDup buckets -> size cache = length buckets) /\
  (~ NoDup buckets -> size cache < length buckets) /\
  (forall before i after bucket,
     completion_order = before ++ i :: after ->
     buckets !! i = Some bucket ->
     (forall j, j ∈ after -> buckets !! j <> Some bucket) ->
     exists entry,
       cache !! key_of training_config bucket = Some entry /\
       compiled_by entry = i).
Proof.
  intros Hbuckets Hperm Hcompile. unfold dp_compile_all_unique_resolution.
  rewrite Hbuckets. cbn [mbind result_bind].
  destruct (mapM _ buckets) as [jobs|e] eqn:Hjobs; cbn [mbind result_bind];
    [|discriminate].
  intros [= <-]. apply lowered_jobs in Hjobs.
  pose proof (Forall2_length _ _ _ Hjobs) as Hlen.
  assert (Hkeys : snd <$> jobs = (fun b => key_of training_config b) <$> buckets).
  { clear -Hjobs. induction Hjobs as [|b job bs js [_ Hk] _ IH]; [reflexivity|].
    cbn. rewrite Hk, IH. reflexivity. }
  assert (Hsize :
    size (foldl (_compile_unique_res_train_step compile jobs) ∅ completion_order)
    = size (list_to_set ((fun b => key_of training_config b) <$> buckets)
              : gset (Z * Z * Z * Z))).
  { rewrite <- Hkeys. apply workers_size; [rewrite <- Hlen; exact Hperm|].
    intros HLO key (i & Hi)%list_elem_of_lookup.
    destruct (Forall2_lookup_r _ _ _ _ _ Hjobs Hi) as (b & Hb & Hlow & _).
    apply (Hcompile b); [apply list_elem_of_lookup; eauto | exact Hlow]. }
  split; [|split].
  - intros Hnd. rewrite Hsize, size_list_to_set, length_fmap; [reflexivity|].
    apply NoDup_fmap_2; [|exact Hnd]. intros b b'. apply key_of_inj.
  - intros Hdup. rewrite Hsize.
    rewrite <- (length_fmap (fun b => key_of training_config b) buckets).
    apply size_list_to_set_lt. intros Hnd. apply Hdup.
    eapply NoDup_fmap_1, Hnd.
  - intros before i after bucket -> Hi Hafter.
    destruct (Forall2_lookup_l _ _ _ _ _ Hjobs Hi) as ([HLO key] & Hjob & Hlow & Hk).
    cbn in Hlow, Hk. subst key.
    destruct (Hcompile bucket HLO) as [exe Hexe];
      [apply list_elem_of_lookup; eauto | exact Hlow |].
    exists {| compiled_by := i; executable := exe |}. split; [|reflexivity].
    apply (last_store_wins compile jobs before after i ∅ HLO _ exe Hjob Hexe).
    intros j HLO' Hj Hjob'.
    destruct (Forall2_lookup_r _ _ _ _ _ Hjobs Hjob') as (b' & Hb' & _ & Hk').
    cbn in Hk'. apply key_of_inj in Hk'. subst b'. exact (Hafter j Hj Hb').
Qed.

(** C7, as amended: no length check takes place. The two constraint lists
    are paired up to the length of the shorter one and what remains of the
    longer one is ignored. *)
Theorem constraint_lists_are_zipped (training_config : TrainingConfig)
    (completion_order : list nat) :
  dp_compile_all_unique_resolution float64 lower compile training_config
    completion_order
  = dp_compile_all_unique_resolution float64 lower compile
      (with_constraints training_config
         (take (length (image_area_root training_config)
                `min` length (minimum_axis_length training_config))
               (image_area_root training_config))
         (take (length (image_area_root training_config)
                `min` length (minimum_axis_length training_config))
               (minimum_axis_length training_config)))
      completion_order.
Proof.
  unfold dp_compile_all_unique_resolution, all_possible_resolution.
  cbn [image_area_root minimum_axis_length with_constraints].
  rewrite zip_take_min. reflexivity.
Qed.

End CompileClaims.

Lemma cache_entries_witness :
  exists cache : gmap (Z * Z * Z * Z) (Compiled BatchShape),
    dp_compile_all_unique_resolution float64_small Ok Some duplicate_config [1; 0]%nat
    = Ok cache /\
    (NoDup [(512, 512); (512, 512)] -> size cache = 2%nat) /\
    (~ NoDup [(512, 512); (512, 512)] -> (size cache < 2)%nat) /\
    (forall before i after bucket,
       [1; 0]%nat = before ++ i :: after ->
       [(512, 512); (512, 512)] !! i = Some bucket ->
       (forall j, j ∈ after -> [(512, 512); (512, 512)] !! j <> Some bucket) ->
       exists entry,
         cache !! pixel_values_shape (dummy_batch_shape duplicate_config bucket)
         = Some entry /\
         compiled_by entry = i).
Proof.
  eexists. split; [vm_compute; reflexivity|].
  apply (cache_entries float64_small Ok Some duplicate_config [1; 0]%nat
           [(512, 512); (512, 512)]).
  - vm_compute. reflexivity.
  - apply perm_swap.
  - intros bucket HLO _ _. eexists. reflexivity.
  - vm_compute. reflexivity.
Defined.

(** C6 as stated fails: two workers compile the same bucket, the worker of
    the later bucket stores first, and the entry left in the dictionary is
    the executable of the earlier bucket. *)
Lemma earlier_bucket_can_win :
  all_possible_resolution float64_small duplicate_config
  = Ok [(512, 512); (512, 512)] /\
  [1; 0]%nat ≡ₚ seq 0 2 /\
  exists cache : gmap (Z * Z * Z * Z) (Compiled BatchShape),
    dp_compile_all_unique_resolution float64_small Ok Some duplicate_config [1; 0]%nat
    = Ok cache /\
    compiled_by <$> cache !! (64, 3, 512, 512) = Some 0%nat /\
    compiled_by <$> cache !! (64, 3, 512, 512) <> Some 1%nat.
Proof.
  split; [vm_compute; reflexivity|]. split; [apply perm_swap|].
  eexists. split; [vm_compute; reflexivity|].
  split; [vm_compute; reflexivity | vm_compute; discriminate].
Qed.

(** C7 as stated fails: with two area roots and one minimum axis length the
    cache is built, from the first pair alone. *)
Lemma mismatched_lengths_accepted :
  length (image_area_root mismatched_config)
  <> length (minimum_axis_length mismatched_config) /\
  all_possible_resolution float64_small mismatched_config
  = Ok [(256, 1024); (320, 768); (384, 640); (448, 576); (512, 512);
        (576, 448); (640, 384); (768, 320); (1024, 256)] /\
  exists cache : gmap (Z * Z * Z * Z) (Compiled BatchShape),
    dp_compile_all_unique_resolution float64_small Ok Some mismatched_config
      (seq 0 9) = Ok cache /\
    size cache = 9%nat.
Proof.
  split; [vm_compute; discriminate|]. split; [vm_compute; reflexivity|].
  eexists. split; [vm_compute; reflexivity|]. vm_compute. reflexivity.
Qed.

Lemma training_state_ignores_rates_witness :
  on_device_model_training_state (OptState:=unit) (fun _ _ => ())
    example_load_models rescaled_config
  = on_device_model_training_state (fun _ _ => ()) example_load_models
      example_config.
Proof.
  apply (training_state_ignores_rates (fun _ _ => ()) example_load_models
           example_config).
  reflexivity.
Defined.

(** * Further properties *)

(** ** [calculate_resolution_array]: errors, shape and order *)

Lemma resolution_index_error
    (float64 : Float64) (max_res_area bucket_lower_bound_res rounding : Z) :
  exact_when_small float64 -> 0 <= max_res_area < 2 ^ 52 -> 0 < rounding ->
  Z.sqrt max_res_area / rounding < bucket_lower_bound_res / rounding ->
  calculate_resolution_array float64 max_res_area bucket_lower_bound_res
    rounding = Raise IndexError.
Proof.
  intros Hfl HA Hr Hlt. unfold calculate_resolution_array.
  rewrite (int_root_small _ Hfl) by exact HA. cbn [mbind result_bind].
  destruct (Z.eqb_spec rounding 0); [lia|].
  fold (widths max_res_area bucket_lower_bound_res rounding).
  rewrite widths_length by exact Hr.
  rewrite seqZ_nil by lia. reflexivity.
Qed.

(** X1: the outcome by input, for arguments below 2^52 in absolute value,
    where float64 does not round and the widths fit an int64. A negative
    area raises [TypeError], a zero rounding [ZeroDivisionError]; for a
    positive rounding the call raises [IndexError] when the lower bound lies
    in a later rounding step than the centroid, and returns otherwise. *)
Theorem resolution_outcome
    (float64 : Float64) (max_res_area bucket_lower_bound_res rounding : Z) :
  exact_when_small float64 ->
  - 2 ^ 52 < max_res_area < 2 ^ 52 ->
  - 2 ^ 52 < bucket_lower_bound_res < 2 ^ 52 ->
  rounding < 2 ^ 52 ->
  (max_res_area < 0 ->
   calculate_resolution_array float64 max_res_area bucket_lower_bound_res
     rounding = Raise TypeError) /\
  (0 <= max_res_area -> rounding = 0 ->
   calculate_resolution_array float64 max_res_area bucket_lower_bound_res
     rounding = Raise ZeroDivisionError) /\
  (0 <= max_res_area -> 0 < rounding ->
   Z.sqrt max_res_area / rounding < bucket_lower_bound_res / rounding ->
   calculate_resolution_array float64 max_res_area bucket_lower_bound_res
     rounding = Raise IndexError) /\
  (0 <= max_res_area -> 0 < rounding ->
   bucket_lower_bound_res / rounding <= Z.sqrt max_res_area / rounding ->
   is_Ok (calculate_resolution_array float64 max_res_area
            bucket_lower_bound_res rounding)).
Proof.
  intros Hfl HA _ _. repeat split.
  - intros Hneg. unfold calculate_resolution_array.
    rewrite (int_root_negative _ Hfl) by lia. reflexivity.
  - intros Hpos ->. unfold calculate_resolution_array.
    rewrite (int_root_small _ Hfl) by lia. reflexivity.
  - intros Hpos Hr Hlt. apply resolution_index_error; [assumption | lia | assumption..].
  - intros Hpos Hr Hle. apply resolution_returns; [assumption | lia | assumption..].
Qed.

Lemma resolution_outcome_witness :
  calculate_resolution_array float64_small (-4) 256 64 = Raise TypeError /\
  calculate_resolution_array float64_small 262144 256 0 = Raise ZeroDivisionError /\
  calculate_resolution_array float64_small 262144 576 64 = Raise IndexError /\
  is_Ok (calculate_resolution_array float64_small 262144 575 64).
Proof.
  pose proof (resolution_outcome float64_small (-4) 256 64 float64_small_exact)
    as (H1 & _); [lia..|].
  pose proof (resolution_outcome float64_small 262144 256 0 float64_small_exact)
    as (_ & H2 & _); [lia..|].
  pose proof (resolution_outcome float64_small 262144 576 64 float64_small_exact)
    as (_ & _ & H3 & _); [lia..|].
  pose proof (resolution_outcome float64_small 262144 575 64 float64_small_exact)
    as (_ & _ & _ & H4); [lia..|].
  split; [apply H1; lia|]. split; [apply H2; lia|].
  split; [apply H3; [lia | lia | vm_compute; reflexivity]|].
  apply H4; [lia | lia | vm_compute; discriminate].
Defined.

(** X2: read backwards with its two columns exchanged, the returned array
    is itself. This holds for every input on which the call returns. *)
Theorem resolution_swap_reverse
    (float64 : Float64) (max_res_area bucket_lower_bound_res rounding : Z)
    (l : list (Z * Z)) :
  calculate_resolution_array float64 max_res_area bucket_lower_bound_res
    rounding = Ok l ->
  reverse (prod_swap <$> l) = l.
Proof.
  intros (c & rows & wl & hl & mirrored & _ & _ & _ & Hlast & Hmir & ->)
    %resolution_structure.
  assert (Hinv : forall k : list (Z * Z),
             reverse (prod_swap <$> reverse (prod_swap <$> k)) = k).
  { intros k. rewrite fmap_reverse, reverse_involutive, <- list_fmap_compose.
    rewrite <- (list_fmap_id k) at 2. apply list_fmap_ext.
    intros _ [a b] _. reflexivity. }
  rewrite fmap_app, reverse_app, Hinv.
  destruct (Z.eqb_spec (wl - hl) 0) as [Heq|_]; subst mirrored; [|reflexivity].
  assert (hl = wl) by lia. subst hl.
  pose proof (drop_last_snoc _ _ Hlast) as Hsplit.
  rewrite Hsplit at 2 3. rewrite fmap_app, reverse_app, <- app_assoc.
  reflexivity.
Qed.

Lemma resolution_swap_reverse_witness :
  calculate_resolution_array float64_small (576 ^ 2) 384 64
  = Ok [(384, 832); (448, 704); (512, 640); (576, 576);
        (640, 512); (704, 448); (832, 384)] /\
  reverse (prod_swap <$> [(384, 832); (448, 704); (512, 640); (576, 576);
                          (640, 512); (704, 448); (832, 384)])
  = [(384, 832); (448, 704); (512, 640); (576, 576);
     (640, 512); (704, 448); (832, 384)].
Proof.
  split; [vm_compute; reflexivity|].
  apply (resolution_swap_reverse float64_small (576 ^ 2) 384 64).
  vm_compute. reflexivity.
Defined.

Section ResolutionOrder.

Variable float64 : Float64.
Variables max_res_area bucket_lower_bound_res rounding : Z.

Local Abbreviation A := max_res_area.
Local Abbreviation m := bucket_lower_bound_res.
Local Abbreviation r := rounding.
Local Abbreviation Widths := (widths A m r).
Local Abbreviation Landscape := (landscape float64 A m r).
Local Abbreviation height := (height_of float64 A r).
Local Abbreviation widest := (Z.sqrt A / r * r).

Hypothesis rounding_pos : 0 < r.
Hypothesis lower_bound_ge : r <= m.
Hypothesis float64_exact : exact_when_small float64.
Hypothesis area_small : 0 <= A < 2 ^ 52.

Lemma widest_in_widths (w : Z) : w ∈ Widths -> widest ∈ Widths /\ w <= widest.
Proof.
  intros (i & [Hlo Hhi] & ->)%elem_of_widths; [|assumption].
  split; [|nia]. apply elem_of_widths; [assumption|].
  exists (Z.sqrt A / r). split; [lia | reflexivity].
Qed.

(** A wider row is strictly lower. *)
Lemma heights_decreasing (a b : Z) :
  a ∈ Widths -> b ∈ Widths -> a < b -> height b < height a.
Proof.
  intros Ha Hb Hlt.
  pose proof (widths_row_ok float64 A m r rounding_pos lower_bound_ge
                float64_exact area_small a Ha) as [_ Hpa Hma Hha _ _ Hta _].
  pose proof (widths_row_ok float64 A m r rounding_pos lower_bound_ge
                float64_exact area_small b Hb) as [_ Hpb Hmb Hhb Hleb Hab _ _].
  apply Z.mod_divide in Hma as [i Hi]; [|lia].
  apply Z.mod_divide in Hmb as [j Hj]; [|lia].
  rewrite Hha, Hhb in *. clear Hha Hhb.
  set (qa := A / (a * r)) in *. set (qb := A / (b * r)) in *.
  assert (Hij : i + 1 <= j) by nia.
  assert (Hstep : a + r <= b) by (rewrite Hi, Hj; nia).
  destruct (Z.lt_ge_cases qb qa) as [|Hge]; [nia|]. exfalso.
  assert (H1 : (qa * r + r) * a <= (qb * r + r) * a) by nia.
  assert (H2 : (qb * r + r) * a <= qb * r * (b - r) + r * a) by nia.
  assert (H3 : qb * r * (b - r) + r * a = b * (qb * r) - r * (qb * r - a)) by ring.
  assert (H4 : 0 < r * (qb * r - a)) by nia.
  lia.
Qed.

(** Every width is at most every height, with equality only on a square
    row. *)
Lemma width_le_height (a b : Z) :
  a ∈ Widths -> b ∈ Widths ->
  a <= height b /\ (a = height b -> a = b /\ height b = b).
Proof.
  intros Ha Hb.
  destruct (widest_in_widths a Ha) as [Hs Has].
  destruct (widest_in_widths b Hb) as [_ Hbs].
  pose proof (widths_row_ok float64 A m r rounding_pos lower_bound_ge
                float64_exact area_small _ Hs) as [_ _ _ _ Hles _ _ _].
  destruct (Z.eq_dec b widest) as [->|Hne].
  - split; [lia|]. intros Heq. lia.
  - assert (Hdec : height widest < height b)
      by (apply heights_decreasing; [assumption.. | lia]).
    split; [lia|]. intros Heq. lia.
Qed.

(** The widest row is square exactly when the area leaves no room for one
    more rounding step of height. *)
Lemma widest_square_iff :
  widest ∈ Widths -> (height widest = widest <-> A < (widest + r) * widest).
Proof.
  intros Hs.
  pose proof (widths_row_ok float64 A m r rounding_pos lower_bound_ge
                float64_exact area_small _ Hs) as [_ Hpos Hmod Hh Hle Harea Htight _].
  split; [intros Heq; rewrite Heq in Htight; exact Htight|].
  intros Hlt. rewrite Hh in *. set (q := A / (widest * r)) in *.
  apply Z.mod_divide in Hmod as [k Hk]; [|lia].
  destruct (Z.eq_dec (q * r) widest) as [|Hne]; [assumption|]. exfalso.
  assert (k + 1 <= q) by nia. nia.
Qed.

End ResolutionOrder.

Lemma StronglySorted_fmap_elem_of {X Y} (f : X -> Y)
    (R1 : relation X) (R2 : relation Y) (l : list X) :
  (forall x y, x ∈ l -> y ∈ l -> R1 x y -> R2 (f x) (f y)) ->
  StronglySorted R1 l -> StronglySorted R2 (f <$> l).
Proof.
  intros Hf Hl. induction Hl as [|x l Hl IH Hx]; [constructor|].
  cbn. constructor.
  - apply IH. intros a b Ha Hb. apply Hf; right; assumption.
  - apply Forall_fmap, Forall_forall. intros y Hy. cbn.
    apply Hf; [left | right; exact Hy |].
    rewrite Forall_forall in Hx. exact (Hx y Hy).
Qed.

Lemma StronglySorted_reverse {X} (R : relation X) (l : list X) :
  StronglySorted R l -> StronglySorted (flip R) (reverse l).
Proof.
  induction 1 as [|x l Hl IH Hx]; [constructor|].
  rewrite reverse_cons. apply StronglySorted_app_2; [|exact IH|repeat constructor].
  intros a b Ha Hb. apply list_elem_of_singleton in Hb as ->.
  rewrite elem_of_reverse in Ha. rewrite Forall_forall in Hx. exact (Hx a Ha).
Qed.

Lemma StronglySorted_seqZ (start len : Z) : StronglySorted Z.lt (seqZ start len).
Proof.
  unfold seqZ. generalize (Z.to_nat len) as k. intros k.
  apply (StronglySorted_fmap _ lt); [intros; lia|].
  generalize 0%nat as s. induction k as [|k IH]; intros s; cbn; constructor.
  - apply IH.
  - apply Forall_forall. intros y Hy%elem_of_seq. lia.
Qed.

(** X3: under the validity conditions, for an area below 2^52, no bucket
    can grow by one rounding step in either axis and stay within the
    area. *)
Theorem buckets_are_maximal
    (float64 : Float64) (max_area min_minor_axis rounding : Z) (l : list (Z * Z)) :
  exact_when_small float64 -> 0 <= max_area < 2 ^ 52 ->
  0 < rounding -> rounding <= min_minor_axis ->
  calculate_resolution_array float64 max_area min_minor_axis rounding = Ok l ->
  forall width height, (width, height) ∈ l ->
    max_area < width * (height + rounding) /\
    max_area < (width + rounding) * height.
Proof.
  intros Hfl HA Hr Hm Hl w h Hin.
  apply (resolution_elem_of _ _ _ _ Hr Hm Hfl HA _ _ _ Hl) in Hin.
  destruct Hin as [Hin|[Hin _]];
    apply (landscape_row_ok _ _ _ _ Hr Hm Hfl HA) in Hin;
    destruct Hin as [_ Hpos _ _ Hle _ Htight _]; nia.
Qed.

Lemma buckets_are_maximal_witness :
  calculate_resolution_array float64_small (576 ^ 2) 384 64
  = Ok [(384, 832); (448, 704); (512, 640); (576, 576);
        (640, 512); (704, 448); (832, 384)] /\
  forall width height,
    (width, height) ∈ [(384, 832); (448, 704); (512, 640); (576, 576);
                       (640, 512); (704, 448); (832, 384)] ->
    576 ^ 2 < width * (height + 64) /\ 576 ^ 2 < (width + 64) * height.
Proof.
  split; [vm_compute; reflexivity|].
  apply (buckets_are_maximal float64_small (576 ^ 2) 384 64);
    [exact float64_small_exact | lia | lia | lia | vm_compute; reflexivity].
Defined.

(** X4: the number of buckets, for an area below 2^52. With [n] widths in
    the range, the array has [2n - 1] rows when the widest row is square and
    [2n] rows otherwise. *)
Theorem resolution_length
    (float64 : Float64) (max_area min_minor_axis rounding : Z) (l : list (Z * Z)) :
  exact_when_small float64 -> 0 <= max_area < 2 ^ 52 ->
  0 < rounding -> rounding <= min_minor_axis ->
  calculate_resolution_array float64 max_area min_minor_axis rounding = Ok l ->
  Z.of_nat (length l)
  = 2 * (Z.sqrt max_area / rounding - min_minor_axis / rounding + 1)
    - (if decide (max_area
                  < (Z.sqrt max_area / rounding * rounding + rounding)
                    * (Z.sqrt max_area / rounding * rounding))
       then 1 else 0).
Proof.
  intros Hfl HA Hr Hm Hl.
  apply (resolution_shape _ _ _ _ Hfl HA) in Hl
    as (_ & wl & hl & mirrored & Hlast & Hmir & ->).
  set (rows := landscape float64 max_area min_minor_axis rounding) in *.
  assert (Hrows : Z.of_nat (length rows)
                  = Z.sqrt max_area / rounding - min_minor_axis / rounding + 1
                  /\ (0 < length rows)%nat).
  { assert (Hpos : (0 < length rows)%nat).
    { destruct rows; [discriminate | cbn; lia]. }
    split; [|exact Hpos]. revert Hpos. unfold rows, landscape.
    rewrite length_fmap, widths_length, length_fmap, length_seqZ by exact Hr.
    lia. }
  destruct Hrows as [Hn Hpos].
  assert (Hw : wl ∈ widths max_area min_minor_axis rounding
               /\ hl = height_of float64 max_area rounding wl).
  { apply elem_of_landscape. apply last_Some_elem_of, Hlast. }
  destruct Hw as [Hw ->].
  assert (Hwl : wl = Z.sqrt max_area / rounding * rounding).
  { unfold rows, landscape in Hlast. rewrite fmap_last in Hlast.
    apply fmap_Some in Hlast as (x & Hx & [= -> _]).
    eapply widths_last; [exact Hr | exact Hx]. }
  pose proof (widest_square_iff float64 max_area min_minor_axis rounding
                Hr Hm Hfl HA) as Hsq.
  rewrite <- Hwl in Hsq. specialize (Hsq Hw).
  rewrite length_app, length_reverse, length_fmap, <- Hwl.
  destruct (Z.eqb_spec (wl - height_of float64 max_area rounding wl) 0)
    as [Heq|Hne]; subst mirrored.
  - destruct (decide (_ < _)) as [_|Hn']; [|exfalso; apply Hn', Hsq; lia].
    rewrite length_drop_last. lia.
  - destruct (decide (_ < _)) as [Hlt|_]; [apply Hsq in Hlt; lia|]. lia.
Qed.

Lemma resolution_length_witness :
  calculate_resolution_array float64_small (576 ^ 2) 384 64
  = Ok [(384, 832); (448, 704); (512, 640); (576, 576);
        (640, 512); (704, 448); (832, 384)] /\
  Z.of_nat (length [(384, 832); (448, 704); (512, 640); (576, 576);
                    (640, 512); (704, 448); (832, 384)])
  = 2 * (Z.sqrt (576 ^ 2) / 64 - 384 / 64 + 1)
    - (if decide (576 ^ 2 < (Z.sqrt (576 ^ 2) / 64 * 64 + 64)
                            * (Z.sqrt (576 ^ 2) / 64 * 64))
       then 1 else 0).
Proof.
  split; [vm_compute; reflexivity|].
  apply (resolution_length float64_small (576 ^ 2) 384 64);
    [exact float64_small_exact | lia | lia | lia | vm_compute; reflexivity].
Defined.

Lemma square_row_in_array
    (float64 : Float64) (max_area min_minor_axis rounding : Z) (l : list (Z * Z)) (side : Z) :
  exact_when_small float64 -> 0 <= max_area < 2 ^ 52 ->
  0 < rounding -> rounding <= min_minor_axis ->
  calculate_resolution_array float64 max_area min_minor_axis rounding = Ok l ->
  (side, side) ∈ l <->
  side = Z.sqrt max_area / rounding * rounding /\
  max_area < (side + rounding) * side.
Proof.
  intros Hfl HA Hr Hm Hl.
  rewrite (resolution_elem_of _ _ _ _ Hr Hm Hfl HA _ _ _ Hl). split.
  - intros [Hin|[_ Hne]]; [|contradiction].
    pose proof (landscape_row_ok _ _ _ _ Hr Hm Hfl HA _ _ Hin) as Hrow.
    split; [eapply square_row_is_last; eassumption|].
    destruct Hrow as [_ _ _ _ _ _ Htight _]. exact Htight.
  - intros [-> Hlt]. left.
    apply (resolution_shape _ _ _ _ Hfl HA) in Hl as (_ & wl & hl & _ & Hlast & _).
    apply last_Some_elem_of, elem_of_landscape in Hlast as [Hw _].
    destruct (widest_in_widths _ _ _ Hr _ Hw) as [Hs _].
    apply elem_of_landscape. split; [exact Hs|]. symmetry.
    apply (widest_square_iff float64 _ _ _ Hr Hm Hfl HA Hs), Hlt.
Qed.

(** X5: for an area below 2^52, a square bucket is in the array exactly
    when it is the widest row and the area leaves no room for one more step
    of height there. *)
Theorem square_bucket_iff
    (float64 : Float64) (max_area min_minor_axis rounding : Z) (l : list (Z * Z)) (side : Z) :
  exact_when_small float64 -> 0 <= max_area < 2 ^ 52 ->
  0 < rounding -> rounding <= min_minor_axis ->
  calculate_resolution_array float64 max_area min_minor_axis rounding = Ok l ->
  (side, side) ∈ l <->
  side = Z.sqrt max_area / rounding * rounding /\
  max_area < (side + rounding) * side.
Proof. apply square_row_in_array. Qed.

Lemma square_bucket_iff_witness :
  calculate_resolution_array float64_small (576 ^ 2) 384 64
  = Ok [(384, 832); (448, 704); (512, 640); (576, 576);
        (640, 512); (704, 448); (832, 384)] /\
  ((576, 576) ∈ [(384, 832); (448, 704); (512, 640); (576, 576);
                 (640, 512); (704, 448); (832, 384)] <->
   576 = Z.sqrt (576 ^ 2) / 64 * 64 /\ 576 ^ 2 < (576 + 64) * 576).
Proof.
  split; [vm_compute; reflexivity|].
  apply (square_bucket_iff float64_small (576 ^ 2) 384 64);
    [exact float64_small_exact | lia | lia | lia | vm_compute; reflexivity].
Defined.

(** X6: called as the cache builder calls it, with the square of a root
    below 2^26 that is a multiple of the rounding and a lower bound between
    one rounding step and the root, the planner returns and the square
    bucket [(root, root)] is among the buckets. *)
Theorem square_bucket_of_root
    (float64 : Float64) (root min_minor_axis rounding : Z) :
  exact_when_small float64 -> root < 2 ^ 26 ->
  0 < rounding -> rounding <= min_minor_axis -> min_minor_axis <= root ->
  root mod rounding = 0 ->
  exists l,
    calculate_resolution_array float64 (root ^ 2) min_minor_axis rounding
    = Ok l /\
    (root, root) ∈ l.
Proof.
  intros Hfl Hsmall Hr Hm Hroot Hmod.
  assert (Hsqrt : Z.sqrt (root ^ 2) = root).
  { replace (root ^ 2) with (root * root) by ring. apply Z.sqrt_square. lia. }
  assert (HA : 0 <= root ^ 2 < 2 ^ 52).
  { change (2 ^ 52) with (2 ^ 26 * 2 ^ 26). nia. }
  destruct (resolution_returns float64 (root ^ 2) min_minor_axis rounding)
    as [l Hl];
    [exact Hfl | exact HA | exact Hr
    | rewrite Hsqrt; apply Z.div_le_mono; lia |].
  exists l. split; [exact Hl|].
  apply (square_row_in_array _ _ _ _ _ _ Hfl HA Hr Hm Hl).
  rewrite Hsqrt. apply Z.mod_divide in Hmod as [k ->]; [|lia].
  rewrite Z.div_mul by lia. split; [reflexivity | nia].
Qed.

Lemma square_bucket_of_root_witness :
  exists l,
    calculate_resolution_array float64_small (704 ^ 2) 512 64 = Ok l /\
    (704, 704) ∈ l.
Proof.
  apply (square_bucket_of_root float64_small 704 512 64);
    [exact float64_small_exact | lia | lia | lia | lia | reflexivity].
Defined.

Lemma swap_reverse_involutive (k : list (Z * Z)) :
  reverse (prod_swap <$> reverse (prod_swap <$> k)) = k.
Proof.
  rewrite fmap_reverse, reverse_involutive, <- list_fmap_compose.
  rewrite <- (list_fmap_id k) at 2. apply list_fmap_ext.
  intros _ [a b] _. reflexivity.
Qed.

(** X7: for an area below 2^52, the buckets are listed by strictly
    increasing width and strictly decreasing height. *)
Theorem resolution_sorted
    (float64 : Float64) (max_area min_minor_axis rounding : Z) (l : list (Z * Z)) :
  exact_when_small float64 -> 0 <= max_area < 2 ^ 52 ->
  0 < rounding -> rounding <= min_minor_axis ->
  calculate_resolution_array float64 max_area min_minor_axis rounding = Ok l ->
  StronglySorted (fun a b => fst a < fst b /\ snd b < snd a) l.
Proof.
  intros Hfl HA Hr Hm Hl.
  pose proof (resolution_shape _ _ _ _ Hfl HA _ Hl)
    as (_ & wl & hl & mirrored' & Hlast & Hmir' & E').
  destruct (resolution_decompose _ _ _ _ Hr Hm Hfl HA _ Hl)
    as (mirrored & E & _ & Hmir).
  set (R := fun a b : Z * Z => a.1 < b.1 /\ b.2 < a.2).
  set (rows := landscape float64 max_area min_minor_axis rounding) in *.
  assert (mirrored' = mirrored) as ->.
  { rewrite E in E'. apply app_inv_head in E'.
    apply (f_equal (fun k => reverse (prod_swap <$> k))) in E'.
    rewrite !swap_reverse_involutive in E'. congruence. }
  subst l.
  assert (Hrows : StronglySorted R rows).
  { unfold rows, landscape. rewrite widths_length by exact Hr.
    rewrite <- list_fmap_compose.
    apply (StronglySorted_fmap_elem_of _ Z.lt); [|apply StronglySorted_seqZ].
    intros i j Hi Hj Hij. unfold R, row. cbn.
    assert (Hwi : min_minor_axis / rounding * rounding + i * rounding
                  ∈ widths max_area min_minor_axis rounding).
    { rewrite widths_length by exact Hr. apply list_elem_of_fmap. eauto. }
    assert (Hwj : min_minor_axis / rounding * rounding + j * rounding
                  ∈ widths max_area min_minor_axis rounding).
    { rewrite widths_length by exact Hr. apply list_elem_of_fmap. eauto. }
    split; [nia|].
    apply (heights_decreasing float64 _ _ _ Hr Hm Hfl HA); [assumption..|nia]. }
  apply StronglySorted_app_2; [|exact Hrows|].
  - intros [w h] [h' w'] Hin Hin'.
    rewrite elem_of_reverse, list_elem_of_fmap in Hin'.
    destruct Hin' as ([a b] & [= -> ->] & [Hab Hne]%Hmir).
    apply elem_of_landscape in Hin as [Hw ->], Hab as [Ha ->].
    destruct (width_le_height float64 _ _ _ Hr Hm Hfl HA w a Hw Ha) as [H1 H1'].
    destruct (width_le_height float64 _ _ _ Hr Hm Hfl HA a w Ha Hw) as [H2 H2'].
    unfold R. cbn. split.
    + destruct (Z.eq_dec w (height_of float64 max_area rounding a)) as [He|];
        [|lia]. destruct (H1' He) as [-> Hsq]. congruence.
    + destruct (Z.eq_dec a (height_of float64 max_area rounding w)) as [He|];
        [|lia]. destruct (H2' He) as [-> Hsq]. congruence.
  - assert (Hsub : StronglySorted R mirrored).
    { destruct (_ =? _); subst mirrored; [|exact Hrows].
      rewrite (drop_last_snoc _ _ Hlast) in Hrows.
      eapply StronglySorted_app_1_l, Hrows. }
    rewrite <- fmap_reverse.
    apply (StronglySorted_fmap _ (flip R)); [|apply StronglySorted_reverse, Hsub].
    intros [a b] [c d]. unfold R, flip. cbn. tauto.
Qed.

Lemma resolution_sorted_witness :
  calculate_resolution_array float64_small (512 ^ 2) 256 64
  = Ok [(256, 1024); (320, 768); (384, 640); (448, 576); (512, 512);
        (576, 448); (640, 384); (768, 320); (1024, 256)] /\
  StronglySorted (fun a b : Z * Z => fst a < fst b /\ snd b < snd a)
    [(256, 1024); (320, 768); (384, 640); (448, 576); (512, 512);
     (576, 448); (640, 384); (768, 320); (1024, 256)].
Proof.
  split; [vm_compute; reflexivity|].
  apply (resolution_sorted float64_small (512 ^ 2) 256 64);
    [exact float64_small_exact | lia | lia | lia | vm_compute; reflexivity].
Defined.

(** ** [train_step]: how the hidden states are regrouped *)

Section HiddenStatesMore.
Context {Hidden : Type}.
Local Open Scope nat_scope.

Lemma flatten_chunks {X} (n c : nat) (l : list X) :
  flatten (chunks n c l) = take (c * n) l.
Proof.
  revert l. induction c as [|c IH]; intros l; [rewrite take_0; reflexivity|].
  change (flatten (chunks n (S c) l))
    with (take n l ++ flatten (chunks n c (drop n l))).
  rewrite IH. apply take_take_drop.
Qed.

Lemma take_chunks {X} (n j c : nat) (l : list X) :
  take j (chunks n (j + c) l) = chunks n j l.
Proof.
  revert l. induction j as [|j IH]; intros l; [apply take_0|].
  cbn. rewrite IH. reflexivity.
Qed.

Lemma drop_chunks {X} (n j c : nat) (l : list X) :
  drop j (chunks n (j + c) l) = chunks n c (drop (j * n) l).
Proof.
  revert l. induction j as [|j IH]; intros l; [reflexivity|].
  cbn. rewrite IH, drop_drop. reflexivity.
Qed.

(** Cutting windows and then examples is cutting examples directly. *)
Lemma chunks_merge {X} (n k b : nat) (l : list X) :
  flatten <$> chunks k b (chunks n (b * k) l) = chunks (k * n) b l.
Proof.
  revert l. induction b as [|b IH]; intros l; [reflexivity|].
  change (S b * k) with (k + b * k). cbn [chunks fmap list_fmap].
  rewrite take_chunks, drop_chunks, flatten_chunks.
  change (list_fmap _ _ flatten ?x) with (flatten <$> x).
  rewrite IH. reflexivity.
Qed.

Lemma reshape_windows_inv (batch : nat) (encoder_output : list (list Hidden))
    (hidden_states : list (list (list Hidden))) :
  reshape_windows batch encoder_output = Ok hidden_states ->
  exists k,
    0 < batch /\
    length (flatten encoder_output) = batch * (k * window_len) /\
    hidden_states
    = chunks k batch (chunks window_len (batch * k) (flatten encoder_output)).
Proof.
  unfold reshape_windows.
  destruct (decide (batch = 0)) as [|Hb]; [discriminate|].
  destruct (decide (_ mod _ = 0)) as [Hmod|]; [|discriminate].
  intros [= <-]. eexists. split; [lia|]. split; [|reflexivity].
  apply Nat.Div0.div_exact in Hmod. rewrite Hmod at 1. lia.
Qed.

(** X8: when markers are not stripped, regrouping loses nothing: the
    stitched batch has one sequence per example, all of the same length,
    and read in order it is the encoder output. *)
Theorem unstripped_keeps_tokens (batch : nat)
    (encoder_output : list (list Hidden))
    (hidden_states : list (list (list Hidden))) :
  reshape_windows batch encoder_output = Ok hidden_states ->
  exists stitched,
    stitch_windows false hidden_states = Ok stitched /\
    length stitched = batch /\
    flatten stitched = flatten encoder_output /\
    Forall (fun tokens => length tokens * batch
                          = length (flatten encoder_output)) stitched.
Proof.
  intros (k & Hb & Hlen & ->)%reshape_windows_inv.
  exists (chunks (k * window_len) batch (flatten encoder_output)).
  split; [cbn; rewrite chunks_merge; reflexivity|].
  split; [apply chunks_length|].
  split; [rewrite flatten_chunks; apply take_ge; lia|].
  eapply Forall_impl; [apply chunks_piece_length; lia|].
  intros tokens ->. rewrite Hlen. lia.
Qed.


Lemma drop_last_sublist {X} (l : list X) : drop_last l `sublist_of` l.
Proof.
  destruct (last l) as [x|] eqn:Hlast.
  - rewrite (drop_last_snoc _ _ Hlast) at 2. apply sublist_inserts_r. reflexivity.
  - apply last_None in Hlast as ->. reflexivity.
Qed.

Lemma tail_sublist {X} (l : list X) : tail l `sublist_of` l.
Proof. destruct l; [reflexivity|]. cbn. apply sublist_cons. reflexivity. Qed.

Lemma flatten_sublist {X} (f : list X -> list X) (ls : list (list X)) :
  (forall w, f w `sublist_of` w) ->
  flatten (f <$> ls) `sublist_of` flatten ls.
Proof.
  intros Hf. induction ls as [|w ls IH]; [reflexivity|].
  change (f w ++ flatten (f <$> ls) `sublist_of` w ++ flatten ls).
  apply sublist_app; [apply Hf | exact IH].
Qed.

(** X9: with two or more windows the stripped sequence only removes
    tokens: it is the flattened sequence with some tokens left out, in the
    same order. When every window has at least two tokens, its first and
    last token are those of the flattened sequence. *)
Theorem stripped_is_sublist (windows : list (list Hidden)) :
  2 <= length windows ->
  exists stitched,
    strip_bos_eos windows = Ok stitched /\
    stitched `sublist_of` flatten windows /\
    (Forall (fun w => 2 <= length w) windows ->
     head stitched = head (flatten windows) /\
     last stitched = last (flatten windows)).
Proof.
  intros Hk. destruct windows as [|w1 rest]; [cbn in Hk; lia|].
  destruct (last rest) as [wk|] eqn:Hlast.
  2:{ apply last_None in Hlast. subst rest. cbn in Hk. lia. }
  pose proof (drop_last_snoc _ _ Hlast) as Hsplit.
  set (mid := drop_last rest) in *.
  assert (Hlast' : last (w1 :: rest) = Some wk).
  { rewrite Hsplit. rewrite app_comm_cons. apply last_snoc. }
  unfold strip_bos_eos, first_item, last_item. rewrite Hlast'.
  cbn [head mbind result_bind tail]. fold mid. eexists. split; [reflexivity|].
  assert (Hflat : flatten (w1 :: rest) = w1 ++ flatten mid ++ wk).
  { rewrite Hsplit. change (flatten (w1 :: mid ++ [wk]))
      with (w1 ++ flatten (mid ++ [wk])).
    unfold flatten. rewrite join_app. cbn. rewrite app_nil_r. reflexivity. }
  rewrite Hflat. split.
  - apply sublist_app; [apply drop_last_sublist|].
    apply sublist_app; [|apply tail_sublist].
    apply flatten_sublist. intros w.
    etransitivity; [apply drop_last_sublist | apply tail_sublist].
  - intros Hall. apply Forall_cons in Hall as [H1 Hrest].
    rewrite Hsplit in Hrest. apply Forall_app in Hrest as [_ Hwk].
    rewrite Forall_singleton in Hwk. split.
    + destruct w1 as [|a [|b w1]]; cbn in H1; [lia..|]. reflexivity.
    + rewrite !app_assoc.
      destruct (last wk) as [z|] eqn:Hz.
      2:{ apply last_None in Hz. subst wk. cbn in Hwk. lia. }
      apply last_Some in Hz as [wk' ->].
      destruct wk' as [|y wk']; [cbn in Hwk; lia|].
      cbn [tail app]. rewrite app_comm_cons, !app_assoc, !last_snoc. reflexivity.
Qed.


End HiddenStatesMore.

Lemma unstripped_keeps_tokens_witness :
  reshape_windows 2 [seq 0 77; seq 77 77] = Ok [[seq 0 77]; [seq 77 77]] /\
  exists stitched,
    stitch_windows false [[seq 0 77]; [seq 77 77]] = Ok stitched /\
    length stitched = 2%nat /\
    flatten stitched = flatten [seq 0 77; seq 77 77] /\
    Forall (fun tokens => (length tokens * 2)%nat
                          = length (flatten [seq 0 77; seq 77 77])) stitched.
Proof.
  split; [vm_compute; reflexivity|].
  apply (unstripped_keeps_tokens 2 [seq 0 77; seq 77 77]).
  vm_compute. reflexivity.
Defined.

Lemma stripped_is_sublist_witness :
  exists stitched,
    strip_bos_eos [[10; 11; 12]; [20; 21; 22]; [30; 31; 32]]%nat = Ok stitched /\
    stitched `sublist_of` flatten [[10; 11; 12]; [20; 21; 22]; [30; 31; 32]]%nat /\
    (Forall (fun w => (2 <= length w)%nat) [[10; 11; 12]; [20; 21; 22]; [30; 31; 32]]%nat ->
     head stitched = head (flatten [[10; 11; 12]; [20; 21; 22]; [30; 31; 32]]%nat) /\
     last stitched = last (flatten [[10; 11; 12]; [20; 21; 22]; [30; 31; 32]]%nat)).
Proof.
  apply (stripped_is_sublist (Hidden:=nat)
           [[10; 11; 12]; [20; 21; 22]; [30; 31; 32]]%nat).
  cbn. lia.
Defined.

Lemma chunks_zero_nil {X} (b : nat) : chunks 0 b ([] : list X) = replicate b [].
Proof. induction b as [|b IH]; [reflexivity|]. cbn. rewrite IH. reflexivity. Qed.

(** X10: an encoder output without tokens reshapes into examples without
    windows. Flattening then returns empty sequences, while stripping
    raises [IndexError] on the first window that is not there. *)
Theorem empty_encoder_output {Hidden : Type} (batch : nat)
    (encoder_output : list (list Hidden)) :
  (0 < batch)%nat ->
  flatten encoder_output = [] ->
  reshape_windows batch encoder_output = Ok (replicate batch []) /\
  stitch_windows true (replicate batch ([] : list (list Hidden)))
  = Raise IndexError /\
  stitch_windows false (replicate batch ([] : list (list Hidden)))
  = Ok (replicate batch []).
Proof.
  intros Hb Hnil. split; [|split].
  - unfold reshape_windows. rewrite Hnil.
    destruct (decide (batch = 0%nat)) as [|_]; [lia|].
    cbn [length]. rewrite Nat.Div0.mod_0_l, Nat.Div0.div_0_l.
    destruct (decide (0%nat = 0%nat)) as [_|]; [|congruence].
    rewrite Nat.mul_0_r. cbn [chunks]. rewrite chunks_zero_nil. reflexivity.
  - destruct batch as [|b]; [lia|]. reflexivity.
  - cbn. rewrite fmap_replicate. reflexivity.
Qed.

Lemma empty_encoder_output_witness :
  reshape_windows 2 ([[]; []] : list (list unit)) = Ok (replicate 2 []) /\
  stitch_windows true (replicate 2 ([] : list (list unit))) = Raise IndexError /\
  stitch_windows false (replicate 2 ([] : list (list unit)))
  = Ok (replicate 2 []).
Proof.
  apply (empty_encoder_output 2 ([[]; []] : list (list unit))); [lia | reflexivity].
Defined.

(** ** [train_step]: outcome *)

Section TrainStepOutcome.
Context {Tensor Hidden Rng Timesteps Params SchedState OptState Scalar : Type}.

Variable random_split3 : Rng -> Rng * Rng * Rng.
Variable random_normal : Rng -> Tensor -> Tensor.
Variable random_normal_offset : Rng -> Tensor -> Tensor.
Variable random_randint : Rng -> nat -> Z -> Z -> Timesteps.
Variable transpose_nchw : Tensor -> Tensor.
Variable scale : Q -> Tensor -> Tensor.
Variable add : Tensor -> Tensor -> Tensor.
Variable shape0 : Tensor -> nat.
Variable mean_squared_error : Tensor -> Tensor -> Scalar.
Variable grad01 :
  (Params -> Params -> result Scalar) -> Params -> Params -> Params * Params.
Variable tx_step :
  GradientTransformation -> Params -> OptState -> Params -> Params * OptState.

Variable unet_state :
  TrainState.t (UNetFn (Tensor:=Tensor) (Hidden:=Hidden) (Timesteps:=Timesteps)
                  (Params:=Params)) Params OptState.
Variable text_encoder_state :
  TrainState.t (TextEncoderFn (Hidden:=Hidden) (Rng:=Rng) (Params:=Params))
    Params OptState.
Variable batch : Batch (Tensor:=Tensor).
Variable train_rng : Rng.
Variable frozen_vae_state :
  FrozenModel.t (VaeFn (Tensor:=Tensor) (Rng:=Rng) (Params:=Params)) Params.
Variable scheduler :
  FrozenModel.t (Scheduler (Tensor:=Tensor) (Timesteps:=Timesteps)
                   (SchedState:=SchedState)) SchedState.
Variables use_offset_noise strip_bos_eos_token : bool.

Local Abbreviation step_result :=
  (train_step random_split3 random_normal random_normal_offset
     random_randint transpose_nchw scale add shape0 mean_squared_error grad01
     tx_step unet_state text_encoder_state batch train_rng frozen_vae_state
     scheduler use_offset_noise strip_bos_eos_token).

(** The stitched hidden states that [compute_loss] passes to the denoiser. *)
Local Abbreviation hidden_states :=
  (reshape_windows
     (shape0
        (scale (18215 # 100000)
           (transpose_nchw
              (FrozenModel.call frozen_vae_state
                 (FrozenModel.params frozen_vae_state) (pixel_values batch)
                 (snd (fst (random_split3 train_rng)))))))
     (TrainState.apply_fn text_encoder_state
        (TrainState.params text_encoder_state) (input_ids batch)
        (fst (fst (random_split3 train_rng))))
   ≫= stitch_windows strip_bos_eos_token).

(** X11: an exception raised while the hidden states are regrouped leaves
    [train_step] as it is, whatever the prediction type: the reshape comes
    before the target is selected. *)
Theorem train_step_hidden_error (e : exn) :
  hidden_states = Raise e -> step_result = Raise e.
Proof.
  unfold train_step, compute_loss.
  destruct (random_split3 train_rng) as [[dropout_rng sample_rng] new_rng].
  cbn [fst snd].
  destruct (random_split3 sample_rng) as [[noise_offset_rng noise_rng] timestep_rng].
  destruct (reshape_windows _ _) as [windows|e1]; cbn [mbind result_bind];
    [|intros [= ->]; reflexivity].
  destruct (stitch_windows strip_bos_eos_token windows) as [hidden|e2];
    cbn [mbind result_bind]; [discriminate|].
  intros [= ->]. reflexivity.
Qed.

(** X12: [train_step] returns exactly when the hidden states are built and
    the prediction type is one of the two known ones. It then returns the
    third key of the split as the next key, and two states whose step
    counter went up by one and whose [apply_fn] and [tx] are unchanged. *)
Theorem train_step_returns :
  (is_Ok step_result <->
   is_Ok hidden_states /\
   (prediction_type (FrozenModel.call scheduler) = "epsilon"%string \/
    prediction_type (FrozenModel.call scheduler) = "v_prediction"%string)) /\
  forall new_unet_state new_text_encoder_state loss new_train_rng,
    step_result
    = Ok (new_unet_state, new_text_encoder_state, loss, new_train_rng) ->
    new_train_rng = snd (random_split3 train_rng) /\
    TrainState.step new_unet_state = TrainState.step unet_state + 1 /\
    TrainState.apply_fn new_unet_state = TrainState.apply_fn unet_state /\
    TrainState.tx new_unet_state = TrainState.tx unet_state /\
    TrainState.step new_text_encoder_state
    = TrainState.step text_encoder_state + 1 /\
    TrainState.apply_fn new_text_encoder_state
    = TrainState.apply_fn text_encoder_state /\
    TrainState.tx new_text_encoder_state = TrainState.tx text_encoder_state.
Proof.
  unfold train_step, compute_loss, TrainState.apply_gradients, regression_target.
  destruct (random_split3 train_rng) as [[dropout_rng sample_rng] new_rng].
  cbn [fst snd].
  destruct (random_split3 sample_rng) as [[noise_offset_rng noise_rng] timestep_rng].
  destruct (reshape_windows _ _) as [windows|e1]; cbn [mbind result_bind].
  2:{ split; [|discriminate]. split; [intros [x Hx]|intros [[x Hx] _]]; discriminate. }
  destruct (stitch_windows strip_bos_eos_token windows) as [hidden|e2];
    cbn [mbind result_bind].
  2:{ split; [|discriminate]. split; [intros [x Hx]|intros [[x Hx] _]]; discriminate. }
  destruct (decide (_ = "epsilon"%string)) as [He|He];
    [|destruct (decide (_ = "v_prediction"%string)) as [Hv|Hv]];
    cbn [mbind result_bind].
  3:{ split; [|discriminate]. split; [intros [x Hx]; discriminate|].
      intros [_ [?|?]]; contradiction. }
  all: destruct (grad01 _ _ _) as [g0 g1]; cbn [fst snd];
    destruct (tx_step _ g0 _ _) as [p0 o0];
    destruct (tx_step _ g1 _ _) as [p1 o1];
    (split; [split; [intros _; split; [eexists; reflexivity | auto]
                    | intros _; eexists; reflexivity]
            | intros ? ? ? ? [= <- <- <- <-]; cbn; repeat split]).
Qed.

End TrainStepOutcome.

Lemma train_step_hidden_error_witness :
  train_step (fun _ : unit => ((), (), ())) (fun _ latents => latents)
    (fun _ latents => latents) (fun _ _ _ _ => ()) (fun x => x)
    (fun _ x => x) Z.add (fun _ => 1%nat) (fun target pred => (target - pred) ^ 2)
    (fun _ _ _ => ((), ())) (fun _ _ opt_state params => (params, opt_state))
    example_unet_state example_text_encoder_state
    {| pixel_values := 1;
       input_ids := replicate 2 (replicate 76 0);
       attention_mask := replicate 2 (replicate 76 0) |} ()
    example_vae_state (example_scheduler "epsilon") false true
  = Raise ReshapeError.
Proof.
  apply train_step_hidden_error. vm_compute. reflexivity.
Defined.

(** ** [dp_compile_all_unique_resolution]: planning, errors and the cache *)

Lemma mapM_result_is_Ok {X Y} (f : X -> result Y) (l : list X) :
  is_Ok (mapM (M:=result) f l) <-> Forall (fun x => is_Ok (f x)) l.
Proof.
  split.
  - intros [out Hout]. apply mapM_result_Forall2 in Hout.
    induction Hout as [|x y l k Hxy _ IH]; constructor; [eexists; eauto | exact IH].
  - intros Hall.
    destruct (mapM_result_Forall f (fun _ => True) l) as (out & Hout & _).
    + eapply Forall_impl; [exact Hall|]. intros x [y Hy]. eauto.
    + eexists. exact Hout.
Qed.

Lemma mapM_result_first_error {X Y} (f : X -> result Y)
    (before after : list X) (x : X) (e : exn) :
  Forall (fun y => is_Ok (f y)) before -> f x = Raise e ->
  mapM (M:=result) f (before ++ x :: after) = Raise e.
Proof.
  intros Hbefore Hx. induction Hbefore as [|y before [z Hz] _ IH]; cbn.
  - rewrite Hx. reflexivity.
  - rewrite Hz. cbn.
    change (mapM f (before ++ x :: after))
      with (mapM (M:=result) f (before ++ x :: after)) in IH.
    cbn in IH. rewrite IH. reflexivity.
Qed.

Lemma sqrt_of_square (root : Z) : Z.sqrt (root ^ 2) = Z.abs root.
Proof.
  replace (root ^ 2) with (Z.abs root * Z.abs root) by lia.
  apply Z.sqrt_square. lia.
Qed.

(** The square of a root below 2^26 is an area below 2^52. *)
Lemma square_small (root : Z) :
  Z.abs root < 2 ^ 26 -> 0 <= root ^ 2 < 2 ^ 52.
Proof. intros H. change (2 ^ 52) with (2 ^ 26 * 2 ^ 26). nia. Qed.

(** What C1's conditions give for one bucket, in the form used below. *)
Lemma bucket_in_array
    (float64 : Float64) (max_area min_minor_axis rounding : Z) (l : list (Z * Z))
    (width height : Z) :
  exact_when_small float64 -> 0 <= max_area < 2 ^ 52 ->
  0 < rounding -> rounding <= min_minor_axis ->
  calculate_resolution_array float64 max_area min_minor_axis rounding = Ok l ->
  (width, height) ∈ l ->
  width mod rounding = 0 /\ height mod rounding = 0 /\
  width * height <= max_area /\
  min_minor_axis / rounding * rounding <= Z.min width height.
Proof.
  intros Hfl HA Hr Hm Hl Hin.
  apply (resolution_elem_of _ _ _ _ Hr Hm Hfl HA _ _ _ Hl) in Hin.
  destruct Hin as [Hin|[Hin _]];
    apply (landscape_row_ok _ _ _ _ Hr Hm Hfl HA) in Hin;
    destruct Hin as [Hlo Hpos Hmod -> Hle Harea _ _];
    (repeat split; [ | | lia..]);
    first [exact Hmod | apply Z.mod_mul; lia].
Qed.

Section CompileMore.
Context {Lowered Executable : Type}.
Local Open Scope nat_scope.

Variable float64 : Float64.
Variable lower : BatchShape -> result Lowered.
Variable compile : Lowered -> option Executable.

Local Abbreviation key_of config bucket :=
  (pixel_values_shape (dummy_batch_shape config bucket)).
Local Abbreviation constraints config :=
  (zip (image_area_root config) (minimum_axis_length config)).
Local Abbreviation plan_one :=
  (fun resolution_constraint : Z * Z =>
     calculate_resolution_array float64
       (fst resolution_constraint ^ 2) (snd resolution_constraint) 64).

(** X13: with no constraint to plan for (either list empty) the cache
    builder raises the [ValueError] of [np.concatenate]. *)
Theorem empty_constraints_raise (training_config : TrainingConfig)
    (completion_order : list nat) :
  image_area_root training_config = [] \/
  minimum_axis_length training_config = [] ->
  dp_compile_all_unique_resolution float64 lower compile training_config
    completion_order
  = Raise (ValueError "need at least one array to concatenate").
Proof.
  intros Hempty. unfold dp_compile_all_unique_resolution, all_possible_resolution.
  assert (constraints training_config = []) as ->; [|reflexivity].
  destruct Hempty as [-> | ->]; [reflexivity|].
  destruct (image_area_root training_config); reflexivity.
Qed.

(** X14: for roots below 2^26 and minimum axis lengths below 2^52 in
    absolute value, planning returns exactly when there is at least one
    pair of constraints and, for every pair, the minimum axis length does
    not lie in a later step of 64 than the absolute value of the root. *)
Theorem planning_returns_iff (training_config : TrainingConfig) :
  exact_when_small float64 ->
  Forall (fun c : Z * Z => (Z.abs (fst c) < 2 ^ 26 /\ Z.abs (snd c) < 2 ^ 52)%Z)
         (constraints training_config) ->
  is_Ok (all_possible_resolution float64 training_config) <->
  constraints training_config <> [] /\
  Forall (fun c : Z * Z => (snd c / 64 <= Z.abs (fst c) / 64)%Z)
         (constraints training_config).
Proof.
  intros Hfl Hsmall. unfold all_possible_resolution.
  assert (Hone : Forall (fun c : Z * Z =>
             is_Ok (plan_one c) <-> (snd c / 64 <= Z.abs (fst c) / 64)%Z)
             (constraints training_config)).
  { eapply Forall_impl; [exact Hsmall|].
    intros [root axis]. cbn [fst snd]. intros [Hroot _].
    pose proof (square_small root Hroot) as HA.
    rewrite <- sqrt_of_square. split.
    - intros [l Hl]. destruct (Z.le_gt_cases (axis / 64)
                                 (Z.sqrt (root ^ 2) / 64)) as [|Hgt]; [assumption|].
      rewrite (resolution_index_error float64 (root ^ 2) axis 64) in Hl;
        [discriminate | exact Hfl | exact HA | lia | lia].
    - intros Hle. apply resolution_returns; [exact Hfl | exact HA | lia | exact Hle]. }
  assert (Hiff : is_Ok (mapM (M:=result) plan_one (constraints training_config))
                 <-> Forall (fun c : Z * Z =>
                               (snd c / 64 <= Z.abs (fst c) / 64)%Z)
                            (constraints training_config)).
  { rewrite mapM_result_is_Ok. rewrite !Forall_forall in *.
    split; intros H c Hc; apply (Hone c Hc), H, Hc. }
  split.
  - intros [buckets Hb].
    destruct (mapM _ _) as [arrays|e] eqn:Harrays; [|discriminate].
    cbn [mbind result_bind] in Hb. split.
    + intros Hnil. rewrite Hnil in Harrays. injection Harrays as <-. discriminate.
    + apply Hiff. eexists. reflexivity.
  - intros [Hne Hall].
    apply Hiff in Hall. destruct Hall as [arrays Harrays].
    rewrite Harrays. cbn [mbind result_bind].
    apply mapM_result_Forall2, Forall2_length in Harrays.
    destruct arrays; [|eexists; reflexivity].
    destruct (constraints training_config); [congruence | discriminate].
Qed.

End CompileMore.

Lemma planning_returns_iff_witness :
  is_Ok (all_possible_resolution float64_small example_config) /\
  zip (image_area_root example_config) (minimum_axis_length example_config)
  <> [].
Proof.
  pose proof (planning_returns_iff float64_small example_config
                float64_small_exact) as Hiff.
  assert (Hplan : is_Ok (all_possible_resolution float64_small example_config)).
  { apply Hiff.
    - repeat constructor; cbn; lia.
    - split; [discriminate|]. repeat constructor; vm_compute; discriminate. }
  split; [exact Hplan|]. apply Hiff in Hplan.
  - apply Hplan.
  - repeat constructor; cbn; lia.
Defined.

Lemma empty_constraints_raise_witness :
  dp_compile_all_unique_resolution (Lowered:=BatchShape) float64_small Ok Some
    (with_constraints example_config [] [512]) [0%nat]
  = Raise (ValueError "need at least one array to concatenate").
Proof.
  apply (empty_constraints_raise float64_small Ok Some
           (with_constraints example_config [] [512]) [0%nat]).
  left. reflexivity.
Defined.

Section CompileCache.
Context {Lowered Executable : Type}.
Local Open Scope nat_scope.

Variable float64 : Float64.
Variable lower : BatchShape -> result Lowered.
Variable compile : Lowered -> option Executable.

Local Abbreviation Cache := (gmap (Z * Z * Z * Z) (Compiled Executable)).
Local Abbreviation key_of config bucket :=
  (pixel_values_shape (dummy_batch_shape config bucket)).

(** Every entry was stored by a worker of the completion order, for the
    shape it was given, out of a compilation that returned. *)
Lemma workers_entry_origin (jobs : list (Lowered * (Z * Z * Z * Z)))
    (order : list nat) (cache : Cache) (key : Z * Z * Z * Z)
    (entry : Compiled Executable) :
  foldl (_compile_unique_res_train_step compile jobs) cache order !! key
  = Some entry ->
  cache !! key = Some entry \/
  exists HLO,
    compiled_by entry ∈ order /\
    jobs !! compiled_by entry = Some (HLO, key) /\
    compile HLO = Some (executable entry).
Proof.
  revert cache. induction order as [|j order IH]; intros cache; cbn; [auto|].
  intros [Hsome|(HLO & Hin & Hjob & Hexe)]%IH.
  - unfold _compile_unique_res_train_step in Hsome.
    destruct (jobs !! j) as [[HLO resolution]|] eqn:Hj; [|auto].
    destruct (compile HLO) as [exe|] eqn:Hexe; [|auto].
    destruct (decide (resolution = key)) as [->|Hne].
    + rewrite lookup_insert_eq in Hsome. injection Hsome as <-.
      right. exists HLO. cbn. split; [left|]. auto.
    + rewrite lookup_insert_ne in Hsome by exact Hne. auto.
  - right. exists HLO. split; [right; exact Hin | auto].
Qed.

(** Stores of distinct shapes can be exchanged. *)
Lemma workers_commute (jobs : list (Lowered * (Z * Z * Z * Z)))
    (cache : Cache) (i j : nat) :
  NoDup (snd <$> jobs) ->
  _compile_unique_res_train_step compile jobs
    (_compile_unique_res_train_step compile jobs cache i) j
  = _compile_unique_res_train_step compile jobs
      (_compile_unique_res_train_step compile jobs cache j) i.
Proof.
  intros Hnd. unfold _compile_unique_res_train_step.
  destruct (jobs !! i) as [[HLOi ki]|] eqn:Hi; [|reflexivity].
  destruct (jobs !! j) as [[HLOj kj]|] eqn:Hj; [|reflexivity].
  destruct (compile HLOi) as [exei|] eqn:Hci; [|reflexivity].
  destruct (compile HLOj) as [exej|] eqn:Hcj; [|reflexivity].
  destruct (decide (ki = kj)) as [->|Hne].
  - assert (i = j) as ->.
    { eapply NoDup_lookup; [exact Hnd | |];
        rewrite list_lookup_fmap; [rewrite Hi | rewrite Hj]; reflexivity. }
    congruence.
  - apply insert_insert_ne. congruence.
Qed.

Lemma workers_permutation (jobs : list (Lowered * (Z * Z * Z * Z)))
    (order1 order2 : list nat) :
  NoDup (snd <$> jobs) -> order1 ≡ₚ order2 ->
  forall cache : Cache,
    foldl (_compile_unique_res_train_step compile jobs) cache order1
    = foldl (_compile_unique_res_train_step compile jobs) cache order2.
Proof.
  intros Hnd. induction 1 as [|x l1 l2 _ IH|x y l|l1 l2 l3 _ IH1 _ IH2];
    intros cache; cbn.
  - reflexivity.
  - apply IH.
  - rewrite (workers_commute jobs cache y x Hnd). reflexivity.
  - rewrite IH1. apply IH2.
Qed.

Lemma lowered_jobs_keys (training_config : TrainingConfig)
    (buckets : list (Z * Z)) (jobs : list (Lowered * (Z * Z * Z * Z))) :
  mapM (M:=result) (_create_lowered_hlo lower training_config) buckets = Ok jobs ->
  snd <$> jobs = (fun b => key_of training_config b) <$> buckets.
Proof.
  intros Hjobs%lowered_jobs.
  induction Hjobs as [|b job bs js [_ Hk] _ IH]; [reflexivity|].
  cbn. rewrite Hk, IH. reflexivity.
Qed.

(** X15: whatever the completion order, an entry of the returned cache is
    the executable compiled, by the worker recorded in it, from the lowering
    of the planned bucket whose shape is the key. A shape whose compilation
    failed, or that was not planned, has no entry. *)
Theorem cache_is_sound (training_config : TrainingConfig)
    (completion_order : list nat) (cache : Cache)
    (key : Z * Z * Z * Z) (entry : Compiled Executable) :
  dp_compile_all_unique_resolution float64 lower compile training_config
    completion_order = Ok cache ->
  cache !! key = Some entry ->
  exists buckets bucket HLO,
    all_possible_resolution float64 training_config = Ok buckets /\
    compiled_by entry ∈ completion_order /\
    buckets !! compiled_by entry = Some bucket /\
    key = key_of training_config bucket /\
    lower (dummy_batch_shape training_config bucket) = Ok HLO /\
    compile HLO = Some (executable entry).
Proof.
  unfold dp_compile_all_unique_resolution.
  destruct (all_possible_resolution _ _) as [buckets|e]; cbn [mbind result_bind];
    [|discriminate].
  destruct (mapM _ buckets) as [jobs|e] eqn:Hjobs; cbn [mbind result_bind];
    [|discriminate].
  intros [= <-] Hentry. apply lowered_jobs in Hjobs.
  apply workers_entry_origin in Hentry as [Hempty|(HLO & Hin & Hjob & Hexe)].
  { rewrite lookup_empty in Hempty. discriminate. }
  destruct (Forall2_lookup_r _ _ _ _ _ Hjobs Hjob) as (bucket & Hb & Hlow & Hk).
  cbn in Hlow, Hk. exists buckets, bucket, HLO. repeat split; auto.
Qed.

(** X16: when no bucket is planned twice, the returned cache does not
    depend on the order in which the worker threads finish. *)
Theorem cache_schedule_independent (training_config : TrainingConfig)
    (buckets : list (Z * Z)) (order1 order2 : list nat) :
  all_possible_resolution float64 training_config = Ok buckets ->
  NoDup buckets ->
  order1 ≡ₚ order2 ->
  dp_compile_all_unique_resolution float64 lower compile training_config
    order1
  = dp_compile_all_unique_resolution float64 lower compile training_config
      order2.
Proof.
  intros Hbuckets Hnd Hperm. unfold dp_compile_all_unique_resolution.
  rewrite Hbuckets. cbn [mbind result_bind].
  destruct (mapM _ buckets) as [jobs|e] eqn:Hjobs; cbn [mbind result_bind];
    [|reflexivity].
  f_equal. apply workers_permutation; [|exact Hperm].
  rewrite (lowered_jobs_keys _ _ _ Hjobs).
  apply NoDup_fmap_2; [|exact Hnd].
  intros [w h] [w' h']. cbn. intros [= -> ->]. reflexivity.
Qed.

(** X17: the first bucket whose lowering raises ends the cache building
    with that exception, whatever the workers started before it do. *)
Theorem lowering_error_aborts (training_config : TrainingConfig)
    (completion_order : list nat)
    (before after : list (Z * Z)) (bucket : Z * Z) (e : exn) :
  all_possible_resolution float64 training_config
  = Ok (before ++ bucket :: after) ->
  Forall (fun b => is_Ok (lower (dummy_batch_shape training_config b))) before ->
  lower (dummy_batch_shape training_config bucket) = Raise e ->
  dp_compile_all_unique_resolution float64 lower compile training_config
    completion_order = Raise e.
Proof.
  intros Hbuckets Hbefore Hraise. unfold dp_compile_all_unique_resolution.
  rewrite Hbuckets. cbn [mbind result_bind].
  rewrite (mapM_result_first_error _ before after bucket e); [reflexivity| |].
  - eapply Forall_impl; [exact Hbefore|]. intros b [HLO Hb].
    unfold _create_lowered_hlo. rewrite Hb. eexists. reflexivity.
  - unfold _create_lowered_hlo. rewrite Hraise. reflexivity.
Qed.

End CompileCache.

Section CompileShapes.
Context {Lowered Executable : Type}.

Variable float64 : Float64.
Variable lower : BatchShape -> result Lowered.
Variable compile : Lowered -> option Executable.

Lemma planned_bucket_origin (training_config : TrainingConfig)
    (buckets : list (Z * Z)) (bucket : Z * Z) :
  all_possible_resolution float64 training_config = Ok buckets ->
  bucket ∈ buckets ->
  exists root axis l,
    (root, axis) ∈ zip (image_area_root training_config)
                       (minimum_axis_length training_config) /\
    calculate_resolution_array float64 (root ^ 2) axis 64 = Ok l /\
    bucket ∈ l.
Proof.
  unfold all_possible_resolution.
  destruct (mapM _ _) as [arrays|e] eqn:Harrays; cbn [mbind result_bind];
    [|discriminate].
  apply mapM_result_Forall2 in Harrays.
  unfold np_concatenate. destruct arrays as [|a arrays]; [discriminate|].
  intros [= <-] Hin. change (bucket ∈ mjoin (a :: arrays)) in Hin.
  apply list_elem_of_join in Hin as (l & Hin & Hl).
  apply list_elem_of_lookup in Hl as [i Hi].
  destruct (Forall2_lookup_r _ _ _ _ _ Harrays Hi) as ([root axis] & Hc & Hplan).
  exists root, axis, l. split; [|split; assumption].
  eapply list_elem_of_lookup_2, Hc.
Qed.

(** X18: when every minimum axis length is at least 64 and every root is
    below 2^26 in absolute value, each key of the returned cache is [(batch_size, 3, width, height)] for a planned bucket:
    both sides are multiples of 64, and for one of the configured pairs the
    area is at most the square of the root and the minor axis is at least
    the minimum axis length rounded down to a multiple of 64. *)
Theorem cached_shapes_fit (training_config : TrainingConfig)
    (completion_order : list nat)
    (cache : gmap (Z * Z * Z * Z) (Compiled Executable))
    (key : Z * Z * Z * Z) (entry : Compiled Executable) :
  exact_when_small float64 ->
  Forall (fun c : Z * Z => 64 <= snd c /\ Z.abs (fst c) < 2 ^ 26)
         (zip (image_area_root training_config)
              (minimum_axis_length training_config)) ->
  dp_compile_all_unique_resolution float64 lower compile training_config
    completion_order = Ok cache ->
  cache !! key = Some entry ->
  exists root axis width height,
    (root, axis) ∈ zip (image_area_root training_config)
                       (minimum_axis_length training_config) /\
    key = (batch_size training_config, 3, width, height) /\
    width mod 64 = 0 /\ height mod 64 = 0 /\
    width * height <= root ^ 2 /\
    axis / 64 * 64 <= Z.min width height.
Proof.
  intros Hfl Hall Hdp Hentry. unfold dp_compile_all_unique_resolution in Hdp.
  destruct (all_possible_resolution _ _) as [buckets|e] eqn:Hbuckets;
    cbn [mbind result_bind] in Hdp; [|discriminate].
  destruct (mapM _ buckets) as [jobs|e] eqn:Hjobs; cbn [mbind result_bind] in Hdp;
    [|discriminate].
  injection Hdp as <-. apply lowered_jobs in Hjobs.
  apply workers_entry_origin in Hentry as [Hempty|(HLO & _ & Hjob & _)].
  { rewrite lookup_empty in Hempty. discriminate. }
  destruct (Forall2_lookup_r _ _ _ _ _ Hjobs Hjob) as ([w h] & Hb & _ & Hk).
  cbn in Hk. apply list_elem_of_lookup_2 in Hb.
  destruct (planned_bucket_origin _ _ _ Hbuckets Hb)
    as (root & axis & l & Hc & Hl & Hin).
  rewrite Forall_forall in Hall. specialize (Hall _ Hc). cbn in Hall.
  destruct Hall as [Haxis Hroot].
  assert (H64 : 0 < 64) by lia.
  destruct (bucket_in_array _ _ _ _ _ _ _ Hfl (square_small _ Hroot) H64
              Haxis Hl Hin)
    as (Hw & Hh & Harea & Hmin).
  exists root, axis, w, h. repeat split; assumption.
Qed.

End CompileShapes.

Lemma cache_is_sound_witness :
  exists (cache : gmap (Z * Z * Z * Z) (Compiled BatchShape))
         (entry : Compiled BatchShape),
    dp_compile_all_unique_resolution float64_small Ok Some duplicate_config
      [1; 0]%nat = Ok cache /\
    cache !! (64, 3, 512, 512) = Some entry /\
    exists buckets bucket HLO,
      all_possible_resolution float64_small duplicate_config = Ok buckets /\
      compiled_by entry ∈ [1; 0]%nat /\
      buckets !! compiled_by entry = Some bucket /\
      (64, 3, 512, 512) = pixel_values_shape
                            (dummy_batch_shape duplicate_config bucket) /\
      Ok (dummy_batch_shape duplicate_config bucket) = Ok HLO /\
      Some HLO = Some (executable entry).
Proof.
  destruct (dp_compile_all_unique_resolution float64_small Ok Some duplicate_config
              [1; 0]%nat) as [cache|e] eqn:Hdp;
    [|vm_compute in Hdp; discriminate].
  destruct (cache !! (64, 3, 512, 512)) as [entry|] eqn:Hentry.
  - exists cache, entry. split; [reflexivity|]. split; [exact Hentry|].
    exact (cache_is_sound float64_small Ok Some duplicate_config [1; 0]%nat
             cache (64, 3, 512, 512) entry Hdp Hentry).
  - exfalso. vm_compute in Hdp. injection Hdp as <-.
    vm_compute in Hentry. discriminate.
Defined.

Lemma cache_schedule_independent_witness :
  all_possible_resolution float64_small (with_constraints example_config [512] [256])
  = Ok [(256, 1024); (320, 768); (384, 640); (448, 576); (512, 512);
        (576, 448); (640, 384); (768, 320); (1024, 256)] /\
  dp_compile_all_unique_resolution (Lowered:=BatchShape) float64_small Ok Some
    (with_constraints example_config [512] [256]) (reverse (seq 0 9))
  = dp_compile_all_unique_resolution float64_small Ok Some
      (with_constraints example_config [512] [256]) (seq 0 9).
Proof.
  split; [vm_compute; reflexivity|].
  apply (cache_schedule_independent float64_small Ok Some
           (with_constraints example_config [512] [256])
           [(256, 1024); (320, 768); (384, 640); (448, 576); (512, 512);
            (576, 448); (640, 384); (768, 320); (1024, 256)]).
  - vm_compute. reflexivity.
  - apply (bool_decide_unpack _). vm_compute. exact I.
  - apply reverse_Permutation.
Defined.

Lemma lowering_error_aborts_witness :
  dp_compile_all_unique_resolution (Executable:=BatchShape) float64_small
    (fun shape : BatchShape =>
       if decide (pixel_values_shape shape = (64, 3, 512, 512))
       then Raise TypeError else Ok shape)
    Some (with_constraints example_config [512] [256]) (seq 0 9)
  = Raise TypeError.
Proof.
  apply (lowering_error_aborts float64_small _ Some
           (with_constraints example_config [512] [256]) (seq 0 9)
           [(256, 1024); (320, 768); (384, 640); (448, 576)] 
           [(576, 448); (640, 384); (768, 320); (1024, 256)] (512, 512)).
  - vm_compute. reflexivity.
  - repeat constructor; eexists; reflexivity.
  - reflexivity.
Defined.

Lemma cached_shapes_fit_witness :
  exists (cache : gmap (Z * Z * Z * Z) (Compiled BatchShape))
         (entry : Compiled BatchShape),
    dp_compile_all_unique_resolution float64_small Ok Some
      (with_constraints example_config [512] [256]) (seq 0 9) = Ok cache /\
    cache !! (64, 3, 320, 768) = Some entry /\
    exists root axis width height,
      (root, axis) ∈ zip [512] [256] /\
      (64, 3, 320, 768) = (64, 3, width, height) /\
      width mod 64 = 0 /\ height mod 64 = 0 /\
      width * height <= root ^ 2 /\
      axis / 64 * 64 <= Z.min width height.
Proof.
  destruct (dp_compile_all_unique_resolution float64_small Ok Some
              (with_constraints example_config [512] [256]) (seq 0 9))
    as [cache|e] eqn:Hdp; [|vm_compute in Hdp; discriminate].
  destruct (cache !! (64, 3, 320, 768)) as [entry|] eqn:Hentry.
  - exists cache, entry. split; [reflexivity|]. split; [exact Hentry|].
    apply (cached_shapes_fit float64_small Ok Some
             (with_constraints example_config [512] [256]) (seq 0 9)
             cache (64, 3, 320, 768) entry);
      [exact float64_small_exact | |exact Hdp|exact Hentry].
    repeat constructor; cbn; lia.
  - exfalso. vm_compute in Hdp. injection Hdp as <-.
    vm_compute in Hentry. discriminate.
Defined.
